(** * mailspire/spf: a shallow embedding of the SPF checker (spf.go)

    The development follows the layout of the Go package:
    - the pieces of the Go standard library the package calls
      ([strings], [strconv], [net], [errors]);
    - the domain validator, the record parser and [CheckHost];
    - properties of these functions. *)

From Stdlib Require Import String Ascii List ZArith NArith Lia Bool Arith.
Import ListNotations.

Local Open Scope string_scope.
Local Open Scope list_scope.
Local Open Scope nat_scope.

(** ** Bytes *)

Definition byte_val (c : ascii) : Z := Z.of_N (N_of_ascii c).

Definition isDigit (c : ascii) : bool :=
  (48 <=? byte_val c)%Z && (byte_val c <=? 57)%Z.

Definition digitVal (c : ascii) : Z := (byte_val c - 48)%Z.

Definition isEmpty (s : string) : bool :=
  match s with EmptyString => true | String _ _ => false end.

(** ** Package strings

    Go strings are byte sequences; [string] plays that role here, one
    [ascii] per byte.  Separators and cut sets are single bytes at every
    call site of spf.go, so they are passed as [ascii]. *)

Module strings.

(** [s[n:]] for [n <= len(s)]. *)
Fixpoint drop (n : nat) (s : string) : string :=
  match n, s with
  | O, _ => s
  | S _, EmptyString => EmptyString
  | S k, String _ r => drop k r
  end.

(** [s[:n]] for [n <= len(s)]. *)
Fixpoint take (n : nat) (s : string) : string :=
  match n, s with
  | O, _ => EmptyString
  | S _, EmptyString => EmptyString
  | S k, String c r => String c (take k r)
  end.

Definition HasPrefix (s p : string) : bool := String.prefix p s.

Definition TrimPrefix (s p : string) : string :=
  if HasPrefix s p then drop (String.length p) s else s.

(** The bytes of [s] in reverse order. *)
Fixpoint rev (s : string) : string :=
  match s with
  | EmptyString => EmptyString
  | String c r => rev r ++ String c EmptyString
  end.

Definition HasSuffix (s suf : string) : bool :=
  String.prefix (rev suf) (rev s).

Definition TrimSuffix (s suf : string) : string :=
  if HasSuffix s suf
  then rev (drop (String.length suf) (rev s))
  else s.

(** Lower-casing of the ASCII letters.  Bytes from 0x80 up are kept:
    spf.go lower-cases the output of ToASCII, which is ASCII, and tests
    a lower-cased record for the ASCII prefix v=spf1, which no
    non-ASCII letter lower-cases into. *)
Definition lowerByte (c : ascii) : ascii :=
  if (65 <=? byte_val c)%Z && (byte_val c <=? 90)%Z
  then ascii_of_N (N_of_ascii c + 32)
  else c.

Fixpoint ToLower (s : string) : string :=
  match s with
  | EmptyString => EmptyString
  | String c r => String (lowerByte c) (ToLower r)
  end.

(** Index of the first byte [c] of [s], or -1. *)
Fixpoint IndexByte (s : string) (c : ascii) : Z :=
  match s with
  | EmptyString => (-1)%Z
  | String d r =>
      if Ascii.eqb d c then 0%Z
      else let i := IndexByte r c in
           if (i <? 0)%Z then (-1)%Z else (i + 1)%Z
  end.

(** [ContainsRune] for a rune below 0x80, which is one byte. *)
Fixpoint ContainsRune (s : string) (c : ascii) : bool :=
  match s with
  | EmptyString => false
  | String d r => Ascii.eqb d c || ContainsRune r c
  end.

(** [Cut(s, sep)]: the text before and after the first [sep], and
    whether [sep] was found. *)
Fixpoint Cut (s : string) (sep : ascii) : string * string * bool :=
  match s with
  | EmptyString => (EmptyString, EmptyString, false)
  | String d r =>
      if Ascii.eqb d sep then (EmptyString, r, true)
      else let '(b, a, found) := Cut r sep in (String d b, a, found)
  end.

(** [Split(s, sep)] for a one-byte separator: always at least one
    element, one more than the number of separators. *)
Fixpoint Split (s : string) (sep : ascii) : list string :=
  match s with
  | EmptyString => [EmptyString]
  | String d r =>
      if Ascii.eqb d sep then EmptyString :: Split r sep
      else match Split r sep with
           | [] => [String d EmptyString]
           | x :: xs => String d x :: xs
           end
  end.

Definition inCutset (cutset : list ascii) (c : ascii) : bool :=
  existsb (Ascii.eqb c) cutset.

Fixpoint TrimLeft (s : string) (cutset : list ascii) : string :=
  match s with
  | EmptyString => EmptyString
  | String c r => if inCutset cutset c then TrimLeft r cutset else s
  end.

Definition TrimRight (s : string) (cutset : list ascii) : string :=
  rev (TrimLeft (rev s) cutset).

Definition Trim (s : string) (cutset : list ascii) : string :=
  TrimRight (TrimLeft s cutset) cutset.

(** *** White space

    [TrimSpace] and [Fields] use unicode.IsSpace on the runes of the
    UTF-8 text.  [spaceWidth s] is the byte length of a white-space rune
    at the head of [s], or 0: the six ASCII ones, U+0085, U+00A0,
    U+1680, U+2000..U+200A, U+2028, U+2029, U+202F, U+205F, U+3000.
    A lead byte is never inside another rune, so looking at the bytes in
    place agrees with decoding rune by rune. *)
Definition asciiSpace (c : ascii) : bool :=
  let b := byte_val c in
  ((9 <=? b)%Z && (b <=? 13)%Z) || (b =? 32)%Z.

Definition spaceWidth (s : string) : nat :=
  match s with
  | EmptyString => 0
  | String c r =>
      if asciiSpace c then 1
      else
        let b0 := byte_val c in
        match r with
        | EmptyString => 0
        | String c1 r1 =>
            let b1 := byte_val c1 in
            if (b0 =? 194)%Z then
              if (b1 =? 133)%Z || (b1 =? 160)%Z then 2 else 0
            else
              match r1 with
              | EmptyString => 0
              | String c2 _ =>
                  let b2 := byte_val c2 in
                  if (b0 =? 225)%Z then
                    if (b1 =? 154)%Z && (b2 =? 128)%Z then 3 else 0
                  else if (b0 =? 226)%Z then
                    if (b1 =? 128)%Z then
                      if ((128 <=? b2)%Z && (b2 <=? 138)%Z)
                         || (b2 =? 168)%Z || (b2 =? 169)%Z || (b2 =? 175)%Z
                      then 3 else 0
                    else if (b1 =? 129)%Z && (b2 =? 159)%Z then 3 else 0
                  else if (b0 =? 227)%Z then
                    if (b1 =? 128)%Z && (b2 =? 128)%Z then 3 else 0
                  else 0
              end
        end
  end.

(** Drops the white-space runes at the head; [skip] counts the bytes
    still to drop of a rune already recognised. *)
Fixpoint trimLeftSpace (skip : nat) (s : string) : string :=
  match s with
  | EmptyString => EmptyString
  | String _ r =>
      match skip with
      | S k => trimLeftSpace k r
      | O => match spaceWidth s with
             | O => s
             | S k => trimLeftSpace k r
             end
      end
  end.

(** Whether [s] is white-space runes only. *)
Fixpoint allSpace (skip : nat) (s : string) : bool :=
  match s with
  | EmptyString => true
  | String _ r =>
      match skip with
      | S k => allSpace k r
      | O => match spaceWidth s with
             | O => false
             | S k => allSpace k r
             end
      end
  end.

Fixpoint trimRightSpace (s : string) : string :=
  match s with
  | EmptyString => EmptyString
  | String c r => if allSpace 0 s then EmptyString
                  else String c (trimRightSpace r)
  end.

Definition TrimSpace (s : string) : string :=
  trimRightSpace (trimLeftSpace 0 s).

Definition flush (cur : string) : list string :=
  if isEmpty cur then [] else [cur].

(** [Fields]: the maximal runs of bytes between white-space runes;
    [cur] is the field being read. *)
Fixpoint fields (skip : nat) (cur : string) (s : string) : list string :=
  match s with
  | EmptyString => flush cur
  | String c r =>
      match skip with
      | S k => fields k cur r
      | O => match spaceWidth s with
             | O => fields 0 (cur ++ String c EmptyString) r
             | S k => flush cur ++ fields k EmptyString r
             end
      end
  end.

Definition Fields (s : string) : list string := fields 0 EmptyString s.

(** [SplitN(s, sep, n)] for a one-byte separator and [n >= 0]: at most
    [n] pieces, the last one the unsplit rest; nothing for [n = 0]. *)
Fixpoint SplitN (s : string) (sep : ascii) (n : nat) : list string :=
  match n with
  | O => []
  | S O => [s]
  | S n' =>
      let '(before, after, found) := Cut s sep in
      if found then before :: SplitN after sep n' else [s]
  end.

End strings.

(** ** Package strconv *)

Module strconv.

Fixpoint digits (s : string) (acc : Z) : option Z :=
  match s with
  | EmptyString => Some acc
  | String c r => if isDigit c then digits r (acc * 10 + digitVal c)%Z
                  else None
  end.

(** [Atoi]: an optional sign and at least one decimal digit, the value
    within the 64-bit [int]; [None] stands for any error. *)
Definition Atoi (s : string) : option Z :=
  let '(neg, body) :=
    match s with
    | String "+" r => (false, r)
    | String "-" r => (true, r)
    | _ => (false, s)
    end in
  if isEmpty body then None
  else match digits body 0 with
       | None => None
       | Some n =>
           let v := if neg then (- n)%Z else n in
           if (v <? - 2 ^ 63)%Z || (2 ^ 63 - 1 <? v)%Z then None
           else Some v
       end.

End strconv.

(** ** Package net: textual IP addresses and CIDR networks

    An [IP] and an [IPMask] are byte slices, 4 or 16 bytes long. *)

Module net.

Definition IP := list Z.
Definition IPMask := list Z.

Record IPNet := { IPNet_IP : IP; Mask : IPMask }.

(** A parsed address (netip.Addr): the four bytes of an IPv4 address,
    or the sixteen bytes and the zone of an IPv6 one. *)
Inductive Addr :=
| Addr4 (b : list Z)
| Addr6 (b : list Z) (zone : string).

Definition v4InV6Prefix : list Z := [0;0;0;0;0;0;0;0;0;0;255;255]%Z.

Definition list_eqb (a b : list Z) : bool :=
  if list_eq_dec Z.eq_dec a b then true else false.

Definition BitLen (a : Addr) : Z :=
  match a with Addr4 _ => 32%Z | Addr6 _ _ => 128%Z end.

Definition Zone (a : Addr) : string :=
  match a with Addr4 _ => EmptyString | Addr6 _ z => z end.

Definition As16 (a : Addr) : IP :=
  match a with Addr4 b => v4InV6Prefix ++ b | Addr6 b _ => b end.

(** *** Dotted-quad addresses

    [fields] holds the octets closed by a dot so far, [val] and [digLen]
    the octet being read, [prev] the byte before the current one. *)
Fixpoint parseIPv4Fields (s : string) (fields : list Z) (val : Z)
         (digLen : nat) (prev : option ascii) : option (list Z) :=
  match s with
  | EmptyString =>
      if List.length fields <? 3 then None else Some (fields ++ [val])
  | String c r =>
      if isDigit c then
        if (digLen =? 1) && (val =? 0)%Z then None
        else
          let val' := (val * 10 + digitVal c)%Z in
          if (255 <? val')%Z then None
          else parseIPv4Fields r fields val' (S digLen) (Some c)
      else if Ascii.eqb c "." then
        match prev with
        | None => None
        | Some p =>
            if isEmpty r || Ascii.eqb p "." then None
            else if List.length fields =? 3 then None
            else parseIPv4Fields r (fields ++ [val]) 0%Z 0 (Some c)
        end
      else None
  end.

Definition parseIPv4 (s : string) : option (list Z) :=
  parseIPv4Fields s [] 0%Z 0 None.

(** *** Colon-hexadecimal addresses *)

Definition hexVal (c : ascii) : option Z :=
  let b := byte_val c in
  if (48 <=? b)%Z && (b <=? 57)%Z then Some (b - 48)%Z
  else if (97 <=? b)%Z && (b <=? 102)%Z then Some (b - 97 + 10)%Z
  else if (65 <=? b)%Z && (b <=? 70)%Z then Some (b - 65 + 10)%Z
  else None.

(** One group of hexadecimal digits: the number of digits read, their
    value and the text that follows; [None] on a fifth digit. *)
Fixpoint hexGroup (s : string) (off : nat) (acc : Z)
  : option (nat * Z * string) :=
  match s with
  | EmptyString => Some (off, acc, EmptyString)
  | String c r =>
      match hexVal c with
      | None => Some (off, acc, s)
      | Some d =>
          let acc' := (acc * 16 + d)%Z in
          if 3 <? off then None
          else if (65535 <? acc')%Z then None
          else hexGroup r (S off) acc'
      end
  end.

(** The loop over the groups.  [ip] holds the bytes written so far
    (Go's index [i] is its length), [ellipsis] the position of [::].
    Every turn that does not leave the loop writes two bytes, so eight
    turns reach [i = 16]: [n] counts the turns left.  The result is the
    unread text, the bytes and the ellipsis at the end of the loop. *)
Fixpoint v6groups (n : nat) (s : string) (ip : list Z)
         (ellipsis : option nat)
  : option (string * list Z * option nat) :=
  match n with
  | O => Some (s, ip, ellipsis)
  | S n' =>
      match hexGroup s 0 0%Z with
      | None => None
      | Some (off, acc, rest) =>
          if off =? 0 then None
          else if strings.HasPrefix rest "." then
            (* trailing dotted quad *)
            if match ellipsis with
               | None => negb (List.length ip =? 12)
               | Some _ => false
               end then None
            else if 16 <? List.length ip + 4 then None
            else match parseIPv4 s with
                 | None => None
                 | Some ip4 => Some (EmptyString, ip ++ ip4, ellipsis)
                 end
          else
            let ip' := ip ++ [Z.shiftr acc 8; Z.land acc 255] in
            match rest with
            | EmptyString => Some (EmptyString, ip', ellipsis)
            | String c s1 =>
                if negb (Ascii.eqb c ":") then None
                else
                  match s1 with
                  | EmptyString => None
                  | String c1 s2 =>
                      if Ascii.eqb c1 ":" then
                        match ellipsis with
                        | Some _ => None
                        | None =>
                            if isEmpty s2
                            then Some (EmptyString, ip', Some (List.length ip'))
                            else v6groups n' s2 ip' (Some (List.length ip'))
                        end
                      else v6groups n' s1 ip' ellipsis
                  end
            end
      end
  end.

Definition splitZone (s : string) : option (string * string) :=
  let '(before, zone, found) := strings.Cut s "%" in
  if found then
    if isEmpty zone then None else Some (before, zone)
  else Some (s, EmptyString).

Definition parseIPv6 (input : string) : option Addr :=
  match splitZone input with
  | None => None
  | Some (s, zone) =>
      let lead := strings.HasPrefix s "::" in
      let s := if lead then strings.drop 2 s else s in
      let ellipsis := if lead then Some 0 else None in
      if lead && isEmpty s then Some (Addr6 (repeat 0%Z 16) zone)
      else
        match v6groups 8 s [] ellipsis with
        | None => None
        | Some (rest, ip, ellipsis) =>
            if negb (isEmpty rest) then None
            else if List.length ip <? 16 then
              match ellipsis with
              | None => None
              | Some e =>
                  Some (Addr6 (firstn e ip
                               ++ repeat 0%Z (16 - List.length ip)
                               ++ skipn e ip) zone)
              end
            else
              match ellipsis with
              | Some _ => None
              | None => Some (Addr6 ip zone)
              end
        end
  end.

(** [netip.ParseAddr]: the first dot, colon or percent sign decides
    which syntax is tried. *)
Fixpoint addrKind (s : string) : option ascii :=
  match s with
  | EmptyString => None
  | String c r =>
      if Ascii.eqb c "." || Ascii.eqb c ":" || Ascii.eqb c "%"
      then Some c else addrKind r
  end.

Definition ParseAddr (s : string) : option Addr :=
  match addrKind s with
  | Some "."%char => option_map Addr4 (parseIPv4 s)
  | Some ":"%char => parseIPv6 s
  | _ => None
  end.

(** *** Masks and networks *)

Definition To4 (ip : IP) : option IP :=
  if List.length ip =? 4 then Some ip
  else if (List.length ip =? 16)
          && forallb (Z.eqb 0) (firstn 10 ip)
          && (nth 10 ip 0 =? 255)%Z && (nth 11 ip 0 =? 255)%Z
  then Some (skipn 12 ip)
  else None.

(** The bytes of a mask of [l] bytes whose first [n] bits are set. *)
Fixpoint maskBytes (l : nat) (n : Z) : IPMask :=
  match l with
  | O => []
  | S l' =>
      if (8 <=? n)%Z then 255%Z :: maskBytes l' (n - 8)
      else Z.lxor 255 (Z.shiftr 255 n) :: maskBytes l' 0
  end.

Definition CIDRMask (ones bits : Z) : option IPMask :=
  if negb (bits =? 32)%Z && negb (bits =? 128)%Z then None
  else if (ones <? 0)%Z || (bits <? ones)%Z then None
  else Some (maskBytes (Z.to_nat (bits / 8)) ones).

Fixpoint andBytes (ip mask : list Z) : list Z :=
  match ip, mask with
  | a :: ip', m :: mask' => Z.land a m :: andBytes ip' mask'
  | _, _ => []
  end.

(** [ip.Mask(mask)]; [None] is Go's nil result on a length mismatch. *)
Definition IP_Mask (ip : IP) (mask : IPMask) : option IP :=
  let mask :=
    if (List.length mask =? 16) && (List.length ip =? 4)
       && forallb (Z.eqb 255) (firstn 12 mask)
    then skipn 12 mask else mask in
  let ip :=
    if (List.length mask =? 4) && (List.length ip =? 16)
       && list_eqb (firstn 12 ip) v4InV6Prefix
    then skipn 12 ip else ip in
  if List.length ip =? List.length mask then Some (andBytes ip mask) else None.

(** Leading one bits of a byte, and what is left of it shifted. *)
Fixpoint leadingOnes (fuel : nat) (v : Z) : Z * Z :=
  match fuel with
  | O => (0, v)%Z
  | S f =>
      if negb (Z.land v 128 =? 0)%Z
      then let '(n, v') := leadingOnes f (Z.land (Z.shiftl v 1) 255) in
           ((n + 1)%Z, v')
      else (0%Z, v)
  end.

Fixpoint simpleMaskLength (mask : IPMask) : Z :=
  match mask with
  | [] => 0
  | v :: rest =>
      if (v =? 255)%Z then
        let n := simpleMaskLength rest in
        if (n =? -1)%Z then (-1)%Z else (n + 8)%Z
      else
        let '(n, v') := leadingOnes 8 v in
        if negb (v' =? 0)%Z then (-1)%Z
        else if forallb (Z.eqb 0) rest then n else (-1)%Z
  end.

(** [mask.Size()]: the number of leading ones and the bit length. *)
Definition Size (mask : IPMask) : Z * Z :=
  let ones := simpleMaskLength mask in
  if (ones =? -1)%Z then (0, 0)%Z
  else (ones, Z.of_nat (List.length mask) * 8)%Z.

(** The decimal number at the head of [s] (Go's internal [dtoi]):
    value, digits read, success.  Values from 0xFFFFFF up fail. *)
Fixpoint dtoi_go (s : string) (n : Z) (i : nat) : Z * nat * bool :=
  match s with
  | EmptyString => (n, i, negb (i =? 0))
  | String c r =>
      if isDigit c then
        let n' := (n * 10 + digitVal c)%Z in
        if (16777215 <=? n')%Z then (16777215%Z, i, false)
        else dtoi_go r n' (S i)
      else (n, i, negb (i =? 0))
  end.

Definition dtoi (s : string) : Z * nat * bool :=
  let '(n, i, ok) := dtoi_go s 0 0 in
  if i =? 0 then (0%Z, 0, false) else (n, i, ok).

(** [ParseCIDR]: the address, and the network it lies in; [None]
    stands for the parse error. *)
Definition ParseCIDR (s : string) : option (IP * IPNet) :=
  let '(addr, mask, found) := strings.Cut s "/" in
  if negb found then None
  else
    match ParseAddr addr with
    | None => None
    | Some ipAddr =>
        if negb (isEmpty (Zone ipAddr)) then None
        else
          let '(n, i, ok) := dtoi mask in
          if negb ok || negb (i =? String.length mask)
             || (n <? 0)%Z || (BitLen ipAddr <? n)%Z
          then None
          else
            match CIDRMask n (BitLen ipAddr) with
            | None => None
            | Some m =>
                let addr16 := As16 ipAddr in
                match IP_Mask addr16 m with
                | None => None
                | Some masked =>
                    Some (addr16, {| IPNet_IP := masked; Mask := m |})
                end
            end
    end.

End net.

(** ** Errors

    A Go [error] is a value with an identity.  The sentinels of spf.go
    are constructors; so are the four sentinels the package declares next
    to [getSPFRecord], of which only the identity matters, and the two of
    package context.  [errors_New] is an
    error made of a text ([errors.New], or [fmt.Errorf] without a verb);
    the [Errorf] constructors keep the format and the argument apart,
    [%w] being the only verb that wraps. *)

Inductive error : Type :=
| ErrSingleLabel
| ErrEmptyLabel
| ErrLabelTooLong
| ErrDomainTooLong
| ErrIDNAConversion
| ErrNoDNSrecord
| ErrTempfail
| ErrPermfail
| ErrMultipleSPF
| context_Canceled
| context_DeadlineExceeded
| errors_New (msg : string)
| Errorf_q (format : string) (arg : string)
| Errorf_v (format : string) (e : error)
| Errorf_w (format : string) (e : error)
| runtime_panic (msg : string).

Definition error_eq_dec (a b : error) : {a = b} + {a <> b}.
Proof. decide equality; apply string_dec. Defined.

(** [errors.Is]: [target] is [err] or an error [err] wraps. *)
Fixpoint errors_Is (err target : error) : bool :=
  if error_eq_dec err target then true
  else match err with
       | Errorf_w _ inner => errors_Is inner target
       | _ => false
       end.

(** [errors.Is] on a possibly nil error. *)
Definition errIs (err : option error) (target : error) : bool :=
  match err with
  | Some e => errors_Is e target
  | None => false
  end.

(** A value or an error: Go's [(T, error)] results where the value is
    unused on error. *)
Inductive result (A : Type) : Type :=
| Ok (a : A)
| Err (e : error).
Arguments Ok {A} a.
Arguments Err {A} e.

(** ** Results *)

(** [type Result string]; the empty string is its zero value.  [None] of
    spf.go is [None_] here. *)
Definition Result := string.

Definition None_ : Result := "none".
Definition Neutral : Result := "neutral".
Definition Pass : Result := "pass".
Definition Fail : Result := "fail".
Definition SoftFail : Result := "softfail".
Definition TempError : Result := "temperror".
Definition PermError : Result := "permerror".

Definition MaxDNSLookups : Z := 10.
Definition MaxVoidLookups : Z := 2.

Record CheckHostResult := { Code : Result; Cause : option error }.

(** [CheckHostResult{}]. *)
Definition zeroCheckHostResult : CheckHostResult :=
  {| Code := EmptyString; Cause := None |}.

(** ** The record syntax tree *)

Inductive Qualifier := QPlus | QMinus | QTilde | QMark.

Record Modifier := { Name : string; Value : string }.

Record Mechanism := {
  Qual : Qualifier;
  Kind : string;
  Net : option net.IPNet;
  Domain : string;
  Mask4 : Z;
  Mask6 : Z;
  Macro : string
}.

(** [Record] of spf.go. *)
Record Record_ := {
  Mechs : list Mechanism;
  Redirect : option Modifier;
  Exp : option Modifier;
  Unknown : list Modifier
}.

(** ** Record fetches

    The resolver is reached in one place, the record fetch.  A
    computation that may fetch takes the names fetched so far and returns
    them extended. *)

Definition DNS (A : Type) : Type := list string -> A * list string.

Definition ret {A : Type} (a : A) : DNS A := fun log => (a, log).

Definition bind {A B : Type} (m : DNS A) (k : A -> DNS B) : DNS B :=
  fun log => let '(a, log') := m log in k a log'.

Notation "x <- m ;; k" := (bind m (fun x => k))
  (at level 61, m at next level, right associativity).

(** The outcome of a computation started with nothing fetched, and the
    names it fetched. *)
Definition outcome {A : Type} (m : DNS A) : A := fst (m []).
Definition lookups {A : Type} (m : DNS A) : list string := snd (m []).

(** ** Package spf *)

Section Package.

(** [idna.Lookup.ToASCII] of golang.org/x/net/idna: the A-label form of
    a name, or [None] for its error. *)
Variable idna_Lookup_ToASCII : string -> option string.

(** [context.Context], the [TXTResolver] interface and [getSPFRecord],
    the record fetch of RFC 7208 section 4.4.  The package declares them
    in a file that is not embedded here; [getSPFRecord] returns the text
    of the record and an error. *)
Variable context_Context : Type.
Variable TXTResolver : Type.
Variable getSPFRecord : context_Context -> string -> TXTResolver ->
                        string * option error.

(** The field [MaxVoidLookups] of spf.go is [MaxVoidLookups_] here, the
    constant keeping the name. *)
Record Checker := {
  Resolver : TXTResolver;
  MaxLookups : Z;
  MaxVoidLookups_ : Z
}.

Definition NewChecker (r : TXTResolver) : Checker :=
  {| Resolver := r;
     MaxLookups := MaxDNSLookups;
     MaxVoidLookups_ := MaxVoidLookups |}.

(** *** Domain validation *)

(** The loop over the labels: the first offending label decides. *)
Fixpoint checkLabels (labels : list string) : option error :=
  match labels with
  | [] => None
  | lbl :: rest =>
      if String.length lbl =? 0 then Some ErrEmptyLabel
      else if 63 <? String.length lbl then Some ErrLabelTooLong
      else checkLabels rest
  end.

Definition ValidateDomain (raw : string) : result string :=
  let raw := strings.TrimSpace raw in
  let raw := strings.TrimSuffix raw "." in
  match idna_Lookup_ToASCII raw with
  | None => Err ErrIDNAConversion
  | Some ascii =>
      let ascii := strings.ToLower ascii in
      if 255 <? String.length ascii then Err ErrDomainTooLong
      else
        let labels := strings.Split ascii "." in
        if List.length labels <? 2 then Err ErrSingleLabel
        else match checkLabels labels with
             | Some e => Err e
             | None => Ok ascii
             end
  end.

(** The domain part of a MAIL FROM address: the text after the first
    at sign, and whether there is one. *)
Definition getSenderDomain (sender : string) : string * bool :=
  let numofParts := 2 in
  let parts := strings.SplitN sender "@" numofParts in
  if List.length parts =? numofParts then (nth 1 parts EmptyString, true)
  else (EmptyString, false).

Definition localPart (sender : string) : string :=
  let sender := strings.Trim sender ["<"; ">"]%char in
  let at_ := strings.IndexByte sender "@" in
  if (0 <? at_)%Z then strings.take (Z.to_nat at_) sender
  else "postmaster".

(** *** The record parser *)

Definition tokenizer (raw : string) : result (list string) :=
  let raw := strings.TrimSpace raw in
  if negb (strings.HasPrefix (strings.ToLower raw) "v=spf1")
  then Err (errors_New "missing v=spf1")
  else
    (* throw away version tag; there is a first field, since the text
       starts with the six bytes of the tag *)
    let fields := tl (strings.Fields raw) in
    if List.length fields =? 0 then Err (errors_New "no terms")
    else Ok fields.

Definition stripQualifier (tok : string) : Qualifier * string :=
  match tok with
  | EmptyString => (QPlus, tok)
  | String c rest =>
      if Ascii.eqb c "+" then (QPlus, rest)
      else if Ascii.eqb c "-" then (QMinus, rest)
      else if Ascii.eqb c "~" then (QTilde, rest)
      else if Ascii.eqb c "?" then (QMark, rest)
      else (QPlus, tok)
  end.

(** [Mechanism{Qual: q, Kind: kind}]: the other fields zero. *)
Definition mechanism (q : Qualifier) (kind : string) : Mechanism :=
  {| Qual := q; Kind := kind; Net := None; Domain := EmptyString;
     Mask4 := 0; Mask6 := 0; Macro := EmptyString |}.

Definition parseAll (q : Qualifier) (rest : string) : result Mechanism :=
  if negb (String.eqb rest "all") then Err (errors_New "not all")
  else Ok (mechanism q "all").

Definition parseIP4 (q : Qualifier) (rest : string) : result Mechanism :=
  if negb (strings.HasPrefix rest "ip4:") then Err (errors_New "no match")
  else
    let cidr := strings.TrimPrefix rest "ip4:" in
    (* no slash: a single host *)
    let cidr := if negb (strings.ContainsRune cidr "/")
                then (cidr ++ "/32")%string else cidr in
    match net.ParseCIDR cidr with
    | None => Err (Errorf_q "bad ipcidr %q" cidr)
    | Some (ip, netw) =>
        match net.To4 ip with
        | None => Err (Errorf_q "bad ipcidr %q" cidr)
        | Some _ =>
            let '(ones, _) := net.Size (net.Mask netw) in
            if (32 <? ones)%Z then Err (errors_New "cidr out of range")
            else Ok {| Qual := q; Kind := "ip4"; Net := Some netw;
                       Domain := EmptyString; Mask4 := 0; Mask6 := 0;
                       Macro := EmptyString |}
        end
    end.

Definition parseIP6 (q : Qualifier) (rest : string) : result Mechanism :=
  if negb (strings.HasPrefix rest "ip6:") then Err (errors_New "no match")
  else
    let cidr := strings.TrimPrefix rest "ip6:" in
    let cidr := if negb (strings.ContainsRune cidr "/")
                then (cidr ++ "/128")%string else cidr in
    match net.ParseCIDR cidr with
    | None => Err (Errorf_q "bad ipcidr %q" cidr)
    | Some (ip, netw) =>
        match net.To4 ip with
        | Some _ => Err (Errorf_q "bad ipcidr %q" cidr)
        | None =>
            let '(ones, _) := net.Size (net.Mask netw) in
            if (128 <? ones)%Z then Err (errors_New "cidr out out of range")
            else Ok {| Qual := q; Kind := "ip6"; Net := Some netw;
                       Domain := EmptyString; Mask4 := 0; Mask6 := 0;
                       Macro := EmptyString |}
        end
    end.

(** [toInt] of [parseMasks]. *)
Definition toInt (s : string) (max : Z) : result Z :=
  match strconv.Atoi s with
  | None => Err (errors_New "cidr out of range")
  | Some n =>
      if (n <? 0)%Z || (max <? n)%Z
      then Err (errors_New "cidr out of range")
      else Ok n
  end.

Definition parseMasks (maskstr : string) : result (Z * Z) :=
  match strings.Split maskstr "/" with
  | [p0] =>
      match toInt p0 32 with
      | Err e => Err e
      | Ok mask4 => Ok (mask4, (-1)%Z)
      end
  | [p0; p1] =>
      match toInt p0 32 with
      | Err e => Err e
      | Ok mask4 =>
          match toInt p1 128 with
          | Err e => Err e
          | Ok mask6 => Ok (mask4, mask6)
          end
      end
  | _ => Err (errors_New "too many / segments in mask")
  end.

Definition parseA (q : Qualifier) (rest : string) : result Mechanism :=
  if negb (strings.HasPrefix rest "a") then Err (errors_New "no match")
  else
    let spec := strings.drop 1 rest in
    let mk (domain : string) (m : Z * Z) : result Mechanism :=
      Ok {| Qual := q; Kind := "a"; Net := None; Domain := domain;
            Mask4 := fst m; Mask6 := snd m; Macro := EmptyString |} in
    if String.eqb spec EmptyString then mk EmptyString ((-1)%Z, (-1)%Z)
    else if strings.HasPrefix spec "/" then
      match parseMasks (strings.TrimPrefix spec "/") with
      | Err e => Err e
      | Ok m => mk EmptyString m
      end
    else if strings.HasPrefix spec ":" then
      let afterColon := strings.TrimPrefix spec ":" in
      let '(domainPart, maskPart, _) := strings.Cut afterColon "/" in
      match (if negb (String.eqb domainPart EmptyString)
             then match ValidateDomain domainPart with
                  | Err _ => Err (Errorf_q "bad a record domain %q"
                                           domainPart)
                  | Ok _ => Ok domainPart
                  end
             else Ok EmptyString) with
      | Err e => Err e
      | Ok domain =>
          if negb (String.eqb maskPart EmptyString) then
            match parseMasks maskPart with
            | Err e => Err e
            | Ok m => mk domain m
            end
          else mk domain ((-1)%Z, (-1)%Z)
      end
    else Err (Errorf_q "invalid a-mechanism syntax %q" rest).

Definition parseMX (q : Qualifier) (rest : string) : result Mechanism :=
  if negb (strings.HasPrefix rest "mx") then Err (errors_New "no match")
  else
    let spec := strings.drop 2 rest in
    let mk (domain : string) (m : Z * Z) : result Mechanism :=
      Ok {| Qual := q; Kind := "mx"; Net := None; Domain := domain;
            Mask4 := fst m; Mask6 := snd m; Macro := EmptyString |} in
    if String.eqb spec EmptyString then mk EmptyString ((-1)%Z, (-1)%Z)
    else if strings.HasPrefix spec "/" then
      match parseMasks (strings.TrimPrefix spec "/") with
      | Err e => Err e
      | Ok m => mk EmptyString m
      end
    else if strings.HasPrefix spec "" then
      let afterColon := strings.TrimPrefix spec ":" in
      let '(domainPart, maskPart, _) := strings.Cut afterColon "/" in
      match (if negb (String.eqb domainPart EmptyString)
             then match ValidateDomain domainPart with
                  | Err _ => Err (Errorf_q "bad domain %q" domainPart)
                  | Ok _ => Ok domainPart
                  end
             else Ok EmptyString) with
      | Err e => Err e
      | Ok domain =>
          if negb (String.eqb maskPart EmptyString) then
            match parseMasks maskPart with
            | Err e => Err e
            | Ok m => mk domain m
            end
          else mk domain ((-1)%Z, (-1)%Z)
      end
    else Err (Errorf_q "invalid mx-mechanism syntax %q" rest).

(** The ordered list of mechanism parsers. *)
Definition mechParsers : list (Qualifier -> string -> result Mechanism) :=
  [parseAll; parseIP4; parseIP6; parseA; parseMX].

(** The inner loop of [Parse]: [mech] and [perr] after trying the
    parsers in order, from the values [st] they hold before. *)
Fixpoint tryParsers (pfs : list (Qualifier -> string -> result Mechanism))
         (q : Qualifier) (rest : string)
         (st : option Mechanism * option error)
  : option Mechanism * option error :=
  match pfs with
  | [] => st
  | pf :: more =>
      match pf q rest with
      | Ok m => (Some m, None)   (* found a match *)
      | Err e => tryParsers more q rest (None, Some e)
      end
  end.

(** The outer loop of [Parse], [mechs] being [record.Mechs]. *)
Fixpoint parseTokens (tokens : list string) (mechs : list Mechanism)
  : result Record_ :=
  match tokens with
  | [] => Ok {| Mechs := mechs; Redirect := None; Exp := None;
                Unknown := [] |}
  | tok :: more =>
      let '(q, rest) := stripQualifier tok in
      match tryParsers mechParsers q rest (None, None) with
      | (_, Some perr) => Err (Errorf_v "permerror: %v" perr)
      | (Some mech, None) => parseTokens more (mechs ++ [mech])
      | (None, None) => Err (runtime_panic "nil pointer dereference")
      end
  end.

Definition Parse (rawTXT : string) : result Record_ :=
  match tokenizer rawTXT with
  | Err err => Err err
  | Ok tokens => parseTokens tokens []
  end.

(** *** check_host *)

(** The call of [getSPFRecord], which fetches the record of [domain]. *)
Definition fetchSPFRecord (ctx : context_Context) (domain : string)
           (r : TXTResolver) : DNS (string * option error) :=
  fun log => (getSPFRecord ctx domain r, log ++ [domain]).

(** The placeholder of spf.go: Neutral for all inputs. *)
Definition evaluate (c : Checker) (ctx : context_Context) (ip : net.IP)
           (domain spf localPart : string)
  : DNS (CheckHostResult * option error) :=
  ret ({| Code := Neutral;
          Cause := Some (errors_New "policy exists but no assertion") |},
       None).

Definition CheckHost (c : Checker) (ctx : context_Context) (ip : net.IP)
           (domain sender : string)
  : DNS (CheckHostResult * option error) :=
  match ValidateDomain domain with
  | Err err =>
      (* malformed domain results to none *)
      ret ({| Code := None_; Cause := Some err |}, None)
  | Ok valDomain =>
      let domain := valDomain in
      let lp := localPart sender in
      fetched <- fetchSPFRecord ctx domain (Resolver c) ;;
      let '(spfRecord, err) := fetched in
      if errIs err context_Canceled || errIs err context_DeadlineExceeded
      then ret (zeroCheckHostResult, err)
      else if errIs err ErrNoDNSrecord
      then ret ({| Code := None_; Cause := err |}, err)
      else if errIs err ErrTempfail
      then ret ({| Code := TempError; Cause := err |}, None)
      else if errIs err ErrPermfail || errIs err ErrMultipleSPF
      then ret ({| Code := PermError; Cause := err |}, None)
      else
        match err with
        | Some _ => ret (zeroCheckHostResult, err)
        | None =>
            if String.eqb spfRecord EmptyString
            then ret (zeroCheckHostResult, err)
            else evaluate c ctx ip valDomain spfRecord lp
        end
  end.

(** [NewDNSResolver()] and [context.Background()], declared outside
    spf.go, and the package-level [CheckHost] that runs the default
    checker on them; it is [CheckHostDefault] here, the method keeping
    the name. *)
Variable NewDNSResolver : TXTResolver.
Variable context_Background : context_Context.

Definition defaultChecker : Checker := NewChecker NewDNSResolver.

Definition CheckHostDefault (ip : net.IP) (domain sender : string)
  : DNS (CheckHostResult * option error) :=
  CheckHost defaultChecker context_Background ip domain sender.

End Package.

(** ** Sample collaborators

    The properties below are stated for every conversion to A-labels and
    every record fetch.  The samples here serve to run the package on
    concrete names. *)

Definition isLDH (c : ascii) : bool :=
  let b := byte_val c in
  ((97 <=? b)%Z && (b <=? 122)%Z) || ((65 <=? b)%Z && (b <=? 90)%Z)
  || isDigit c || Ascii.eqb c "-".

Fixpoint allLDH (s : string) : bool :=
  match s with
  | EmptyString => true
  | String c r => isLDH c && allLDH r
  end.

Definition plainLabel (lbl : string) : bool :=
  negb (isEmpty lbl) && allLDH lbl
  && negb (strings.HasPrefix lbl "-") && negb (strings.HasSuffix lbl "-")
  && negb (strings.HasPrefix (strings.drop 2 lbl) "--").

(** A conversion that answers on plain host names only: a name whose
    labels are non-empty, of letters, digits and inner hyphens, comes back
    lower-cased; any other name is refused. *)
Definition idna_plain (s : string) : option string :=
  if forallb plainLabel (strings.Split s ".")
  then Some (strings.ToLower s) else None.

(** A conversion that checks nothing and returns its input. *)
Definition idna_unchecked (s : string) : option string := Some s.

(** A record fetch that gives the same answer for every name. *)
Definition fetch_const (answer : string * option error)
  : unit -> string -> unit -> string * option error :=
  fun _ _ _ => answer.

(** A record fetch for two names whose records redirect to each other. *)
Definition fetch_mutual : unit -> string -> unit -> string * option error :=
  fun _ domain _ =>
    if String.eqb domain "a.example.com"
    then ("v=spf1 redirect=b.example.com", None)
    else if String.eqb domain "b.example.com"
    then ("v=spf1 redirect=a.example.com", None)
    else (EmptyString, Some ErrNoDNSrecord).

Definition sampleChecker : Checker unit := NewChecker unit tt.

(** 192.0.2.1 *)
Definition sampleIP : net.IP := [192; 0; 2; 1]%Z.

(** ** Vocabulary of the properties *)

(** The sentinels declared for [ValidateDomain]. *)
Definition domainSentinels : list error :=
  [ErrSingleLabel; ErrEmptyLabel; ErrLabelTooLong; ErrDomainTooLong;
   ErrIDNAConversion].

(** [m] is what the parsers make of the term [tok]: the result of the
    first parser of the list that accepts it, under its qualifier. *)
Definition termMechanism (idna : string -> option string)
           (tok : string) (m : Mechanism) : Prop :=
  tryParsers (mechParsers idna) (fst (stripQualifier tok))
             (snd (stripQualifier tok)) (None, None)
  = (Some m, None)
  /\ Qual m = fst (stripQualifier tok).

(** The fields a mechanism carries, by kind; a field that is not set
    holds Go's zero value. *)
Definition kindFields (m : Mechanism) : Prop :=
  Macro m = EmptyString
  /\ ((Kind m = "all" /\ Net m = None /\ Domain m = EmptyString
       /\ Mask4 m = 0%Z /\ Mask6 m = 0%Z)
      \/ ((Kind m = "ip4" \/ Kind m = "ip6") /\ Net m <> None
          /\ Domain m = EmptyString /\ Mask4 m = 0%Z /\ Mask6 m = 0%Z)
      \/ ((Kind m = "a" \/ Kind m = "mx") /\ Net m = None)).

(** The text after the qualifier starts with no mechanism keyword. *)
Definition noMechanismKeyword (rest : string) : Prop :=
  rest <> "all"
  /\ strings.HasPrefix rest "ip4:" = false
  /\ strings.HasPrefix rest "ip6:" = false
  /\ strings.HasPrefix rest "a" = false
  /\ strings.HasPrefix rest "mx" = false.

(** The address of the argument of an ip4 or ip6 mechanism: the text
    before the first slash, parsed. *)
Definition cidrAddress (arg : string) : option net.Addr :=
  net.ParseAddr (fst (fst (strings.Cut arg "/"))).

(** The address has a four-byte form: it was written as a dotted quad or
    as an IPv4-mapped IPv6 address. *)
Definition hasIPv4Form (a : net.Addr) : Prop :=
  net.To4 (net.As16 a) <> None.

(** [pfx] is a decimal prefix length between 0 and [max]. *)
Definition prefixInRange (pfx : string) (max : Z) : Prop :=
  exists n, net.dtoi pfx = (n, String.length pfx, true)
            /\ (0 <= n <= max)%Z.


(** The rune of a qualifier, as the constants of spf.go give it. *)
Definition qualifierRune (q : Qualifier) : ascii :=
  match q with
  | QPlus => "+"
  | QMinus => "-"
  | QTilde => "~"
  | QMark => "?"
  end%char.

(** Every byte of [s] satisfies [p]. *)
Fixpoint allBytes (p : ascii -> bool) (s : string) : bool :=
  match s with
  | EmptyString => true
  | String c r => p c && allBytes p r
  end.

(** [c] is an angle bracket. *)
Definition isBracket (c : ascii) : bool :=
  strings.inCutset ["<"; ">"]%char c.

(** A mask of an a or mx mechanism is unset, or within [0, max]. *)
Definition maskInRange (m max : Z) : Prop :=
  m = (-1)%Z \/ (0 <= m <= max)%Z.

(** The codes [CheckHost] can return: the zero value and four of the
    seven results. *)
Definition checkHostCodes : list Result :=
  [EmptyString; None_; Neutral; TempError; PermError].

(** [c] is not an ASCII white-space byte. *)
Definition notAsciiSpace (c : ascii) : bool := negb (strings.asciiSpace c).

(** The mechanism [m] under the qualifier [q]. *)
Definition withQual (q : Qualifier) (m : Mechanism) : Mechanism :=
  {| Qual := q; Kind := Kind m; Net := Net m; Domain := Domain m;
     Mask4 := Mask4 m; Mask6 := Mask6 m; Macro := Macro m |}.





(** * Properties *)

Section Properties.

Variable idna : string -> option string.
Variable context_Context : Type.
Variable TXTResolver : Type.
Variable getSPFRecord : context_Context -> string -> TXTResolver ->
                        string * option error.

Local Abbreviation check :=
  (CheckHost idna context_Context TXTResolver getSPFRecord).

(** ** Domain validation *)

Lemma checkLabels_sentinel (labels : list string) (e : error) :
  checkLabels labels = Some e -> e = ErrEmptyLabel \/ e = ErrLabelTooLong.
Proof.
  induction labels as [|lbl rest IH]; simpl; [discriminate|].
  destruct (String.length lbl =? 0); [intros [= <-]; now left|].
  destruct (63 <? String.length lbl); [intros [= <-]; now right|].
  exact IH.
Qed.

(** Every failure of [ValidateDomain] is one of the five sentinels. *)
Lemma ValidateDomain_sentinel (raw : string) (e : error) :
  ValidateDomain idna raw = Err e -> In e domainSentinels.
Proof.
  unfold ValidateDomain, domainSentinels.
  destruct (idna _) as [a|]; [|intros [= <-]; simpl; auto 10].
  destruct (255 <? _); [intros [= <-]; simpl; auto 10|].
  destruct (List.length _ <? 2); [intros [= <-]; simpl; auto 10|].
  destruct (checkLabels _) as [e'|] eqn:L; [|discriminate].
  intros [= <-]. apply checkLabels_sentinel in L.
  destruct L as [-> | ->]; simpl; auto 10.
Qed.

Lemma checkLabels_empty (labels : list string) :
  Forall (fun lbl => String.length lbl <= 63) labels ->
  In EmptyString labels ->
  checkLabels labels = Some ErrEmptyLabel.
Proof.
  induction 1 as [|lbl rest H _ IH]; simpl; [contradiction|].
  destruct (Nat.eqb_spec (String.length lbl) 0) as [|N]; [reflexivity|].
  destruct (Nat.ltb_spec 63 (String.length lbl)); [lia|].
  intros [E|HIn]; [subst lbl; now contradiction N|exact (IH HIn)].
Qed.

Lemma checkLabels_too_long (labels : list string) :
  Forall (fun lbl => 1 <= String.length lbl) labels ->
  Exists (fun lbl => 63 < String.length lbl) labels ->
  checkLabels labels = Some ErrLabelTooLong.
Proof.
  induction 1 as [|lbl rest H _ IH]; simpl; intros E;
    [inversion E|].
  destruct (Nat.eqb_spec (String.length lbl) 0); [lia|].
  destruct (Nat.ltb_spec 63 (String.length lbl)); [reflexivity|].
  inversion E; subst; [lia|auto].
Qed.

(** X24: the diagnostic of each class of malformed domain, on the
    name the conversion to A-labels returns: a refused conversion, more
    than 255 bytes, fewer than two labels, an empty label when no label
    is too long, a label of more than 63 bytes when none is empty. *)
Lemma ValidateDomain_diagnostic (raw : string) :
  match idna (strings.TrimSuffix (strings.TrimSpace raw) ".") with
  | None => ValidateDomain idna raw = Err ErrIDNAConversion
  | Some a =>
      let name := strings.ToLower a in
      let labels := strings.Split name "." in
      (255 < String.length name ->
       ValidateDomain idna raw = Err ErrDomainTooLong)
      /\ (String.length name <= 255 -> List.length labels < 2 ->
          ValidateDomain idna raw = Err ErrSingleLabel)
      /\ (String.length name <= 255 -> 2 <= List.length labels ->
          Forall (fun lbl => String.length lbl <= 63) labels ->
          In EmptyString labels ->
          ValidateDomain idna raw = Err ErrEmptyLabel)
      /\ (String.length name <= 255 -> 2 <= List.length labels ->
          Forall (fun lbl => 1 <= String.length lbl) labels ->
          Exists (fun lbl => 63 < String.length lbl) labels ->
          ValidateDomain idna raw = Err ErrLabelTooLong)
  end.
Proof.
  unfold ValidateDomain.
  destruct (idna _) as [a|]; [|reflexivity]. cbv zeta.
  destruct (Nat.ltb_spec 255 (String.length (strings.ToLower a)));
    (split; [|split; [|split]]); intros; try lia; try reflexivity;
    destruct (Nat.ltb_spec
                (List.length (strings.Split (strings.ToLower a) ".")) 2);
    try lia; try reflexivity.
  - now rewrite checkLabels_empty.
  - now rewrite checkLabels_too_long.
Qed.

(** ** check_host *)

(** A call fetches at most one record. *)
Lemma CheckHost_fetches (c : Checker TXTResolver) (ctx : context_Context)
      (ip : net.IP) (domain sender : string) (log : list string) :
  snd (check c ctx ip domain sender log) = log
  \/ exists v, ValidateDomain idna domain = Ok v
               /\ snd (check c ctx ip domain sender log) = log ++ [v].
Proof.
  unfold CheckHost.
  destruct (ValidateDomain idna domain) as [v|e]; [|now left].
  right. exists v. split; [reflexivity|].
  unfold bind, fetchSPFRecord.
  destruct (getSPFRecord ctx v (Resolver _ c)) as [spfRecord err].
  repeat match goal with
         | |- context [if ?b then _ else _] => destruct b
         | |- context [match ?o with Some _ => _ | None => _ end] =>
             destruct o
         end; reflexivity.
Qed.

(** What [CheckHost] does once the domain is valid and the record is
    fetched without error. *)
Lemma CheckHost_record (c : Checker TXTResolver) (ctx : context_Context)
      (ip : net.IP) (domain sender v spf : string) :
  ValidateDomain idna domain = Ok v ->
  getSPFRecord ctx v (Resolver _ c) = (spf, None) ->
  spf <> EmptyString ->
  check c ctx ip domain sender []
  = ({| Code := Neutral;
        Cause := Some (errors_New "policy exists but no assertion") |},
     None, [v]).
Proof.
  intros Hv Hf Hne. unfold CheckHost, bind, fetchSPFRecord.
  rewrite Hv, Hf. simpl.
  destruct (String.eqb_spec spf EmptyString); [contradiction|reflexivity].
Qed.

(** C8: a domain that [ValidateDomain] rejects gives Code None with the
    validator's error as Cause and a nil transport error, and no record
    is fetched: the list of fetched names is left as it was.  The error
    is one of the five sentinels of the validator, the one of the class
    of the domain by [ValidateDomain_diagnostic]. *)
Theorem CheckHost_malformed_domain (c : Checker TXTResolver)
        (ctx : context_Context) (ip : net.IP) (domain sender : string)
        (e : error) :
  ValidateDomain idna domain = Err e ->
  In e domainSentinels
  /\ forall log,
      check c ctx ip domain sender log
      = ({| Code := None_; Cause := Some e |}, None, log).
Proof.
  intros H. split; [exact (ValidateDomain_sentinel _ _ H)|].
  intros log. unfold CheckHost. rewrite H. reflexivity.
Qed.

(** C1, amended: for a valid domain whose fetched record is
    [v=spf1 -all], and for every connecting IP, [CheckHost] returns
    Code Neutral, the placeholder's cause and a nil transport error. *)
Theorem CheckHost_minus_all_Neutral (c : Checker TXTResolver)
        (ctx : context_Context) (ip : net.IP)
        (domain sender v : string) :
  ValidateDomain idna domain = Ok v ->
  getSPFRecord ctx v (Resolver _ c) = ("v=spf1 -all", None) ->
  outcome (check c ctx ip domain sender)
  = ({| Code := Neutral;
        Cause := Some (errors_New "policy exists but no assertion") |},
     None).
Proof.
  intros Hv Hf. unfold outcome.
  rewrite (CheckHost_record c ctx ip domain sender v _ Hv Hf);
    [reflexivity|discriminate].
Qed.

(** C2, amended: a call of [CheckHost] fetches at most one record,
    whatever the records say, so it stays within [MaxDNSLookups]; it
    does not follow [redirect=], and for two valid domains whose records
    redirect to each other it returns Neutral with a nil transport
    error after the one fetch. *)
Theorem CheckHost_mutual_redirect :
  (forall (c : Checker TXTResolver) (ctx : context_Context) (ip : net.IP)
          (domain sender : string),
      List.length (lookups (check c ctx ip domain sender)) <= 1
      /\ (Z.of_nat (List.length (lookups (check c ctx ip domain sender)))
          <= MaxDNSLookups)%Z)
  /\ (forall (c : Checker TXTResolver) (ctx : context_Context)
             (ip : net.IP) (d1 d2 sender v1 v2 : string),
         ValidateDomain idna d1 = Ok v1 ->
         ValidateDomain idna d2 = Ok v2 ->
         getSPFRecord ctx v1 (Resolver _ c)
         = (("v=spf1 redirect=" ++ d2)%string, None) ->
         getSPFRecord ctx v2 (Resolver _ c)
         = (("v=spf1 redirect=" ++ d1)%string, None) ->
         Code (fst (outcome (check c ctx ip d1 sender))) = Neutral
         /\ snd (outcome (check c ctx ip d1 sender)) = None
         /\ lookups (check c ctx ip d1 sender) = [v1]).
Proof.
  split.
  - intros c ctx ip domain sender. unfold lookups.
    assert (List.length (snd (check c ctx ip domain sender [])) <= 1) as B.
    { destruct (CheckHost_fetches c ctx ip domain sender [])
        as [->|(v & _ & ->)]; simpl; lia. }
    split; [exact B|]. unfold MaxDNSLookups. lia.
  - intros c ctx ip d1 d2 sender v1 v2 H1 _ F1 _.
    unfold outcome, lookups.
    rewrite (CheckHost_record c ctx ip d1 sender v1 _ H1 F1);
      [simpl; auto|discriminate].
Qed.

(** C3, the code at a valid domain without an SPF record: whatever
    the record fetch answers, [CheckHost] does not return Code None
    together with a nil transport error.  Of the two answers that can
    stand for a missing record, [ErrNoDNSrecord] (and no cancellation)
    gives Code None with the error as Cause and the same error, not
    nil, as the transport error; an empty record without an error gives
    the zero [CheckHostResult], whose Code is empty, and a nil error. *)
Theorem CheckHost_no_record_never_None_nil (c : Checker TXTResolver)
        (ctx : context_Context) (ip : net.IP)
        (domain sender v : string) :
  ValidateDomain idna domain = Ok v ->
  ~ (Code (fst (outcome (check c ctx ip domain sender))) = None_
     /\ snd (outcome (check c ctx ip domain sender)) = None)
  /\ (forall (spf : string) (e : error),
         getSPFRecord ctx v (Resolver _ c) = (spf, Some e) ->
         errors_Is e ErrNoDNSrecord = true ->
         errors_Is e context_Canceled = false ->
         errors_Is e context_DeadlineExceeded = false ->
         outcome (check c ctx ip domain sender)
         = ({| Code := None_; Cause := Some e |}, Some e))
  /\ (getSPFRecord ctx v (Resolver _ c) = (EmptyString, None) ->
      outcome (check c ctx ip domain sender)
      = (zeroCheckHostResult, None)).
Proof.
  intros Hv. unfold outcome, CheckHost, bind, fetchSPFRecord.
  rewrite Hv. split; [|split].
  - destruct (getSPFRecord ctx v (Resolver _ c)) as [spf [e|]]; simpl.
    + destruct (errors_Is e context_Canceled
                || errors_Is e context_DeadlineExceeded); simpl;
        [intros [A _]; discriminate|].
      destruct (errors_Is e ErrNoDNSrecord); simpl;
        [intros [_ B]; discriminate|].
      repeat match goal with
             | |- context [if ?b then _ else _] => destruct b; simpl
             end; intros [A B]; discriminate.
    + destruct (String.eqb spf EmptyString); simpl;
        intros [A B]; discriminate.
  - intros spf e Hf Hn Hc Hd. rewrite Hf. simpl.
    rewrite Hc, Hd, Hn. reflexivity.
  - intros Hf. rewrite Hf. reflexivity.
Qed.

(** X25: for a valid domain no path of [CheckHost] gives Code None
    together with a nil transport error. *)
Lemma CheckHost_valid_not_None_nil (c : Checker TXTResolver)
      (ctx : context_Context) (ip : net.IP)
      (domain sender v : string) :
  ValidateDomain idna domain = Ok v ->
  ~ (Code (fst (outcome (check c ctx ip domain sender))) = None_
     /\ snd (outcome (check c ctx ip domain sender)) = None).
Proof.
  intros Hv. unfold outcome, CheckHost, bind, fetchSPFRecord.
  rewrite Hv.
  destruct (getSPFRecord ctx v (Resolver _ c)) as [spf err].
  destruct err as [e|]; simpl.
  - repeat match goal with
           | |- context [if ?b then _ else _] => destruct b; simpl
           end; intros [A B]; discriminate.
  - destruct (String.eqb spf EmptyString); simpl;
      intros [A B]; discriminate.
Qed.

End Properties.

Section ParserProperties.

Variable idna : string -> option string.

(** ** Strings *)

Lemma HasPrefix_inv (s p : string) :
  strings.HasPrefix s p = true ->
  s = (p ++ strings.drop (String.length p) s)%string.
Proof.
  unfold strings.HasPrefix. revert s.
  induction p as [|c p IH]; intros [|d s]; simpl; intros H;
    try reflexivity; try discriminate.
  destruct (ascii_dec c d) as [->|]; [|discriminate].
  f_equal. now apply IH.
Qed.

Lemma HasPrefix_app (p s : string) : strings.HasPrefix (p ++ s) p = true.
Proof.
  unfold strings.HasPrefix. induction p as [|c p IH]; simpl.
  - now destruct s.
  - destruct (ascii_dec c c); [exact IH|contradiction].
Qed.

Lemma drop_app (p s : string) : strings.drop (String.length p) (p ++ s) = s.
Proof. induction p; simpl; auto. Qed.

Lemma TrimPrefix_app (p s : string) : strings.TrimPrefix (p ++ s) p = s.
Proof. unfold strings.TrimPrefix. now rewrite HasPrefix_app, drop_app. Qed.

Lemma Cut_no_sep (s : string) (sep : ascii) :
  strings.ContainsRune s sep = false ->
  strings.Cut s sep = (s, EmptyString, false).
Proof.
  induction s as [|d s IH]; simpl; [reflexivity|].
  destruct (Ascii.eqb d sep); simpl; [intros [=]|].
  intros H. now rewrite (IH H).
Qed.

Lemma Cut_app_sep (s t : string) (sep : ascii) :
  strings.ContainsRune s sep = false ->
  strings.Cut (s ++ String sep t) sep = (s, t, true).
Proof.
  induction s as [|d s IH]; simpl.
  - now rewrite Ascii.eqb_refl.
  - destruct (Ascii.eqb d sep); simpl; [intros [=]|].
    intros H. now rewrite (IH H).
Qed.

Lemma Cut_sep (s : string) (sep : ascii) :
  strings.ContainsRune s sep = true ->
  exists b a, strings.Cut s sep = (b, a, true)
              /\ strings.ContainsRune b sep = false
              /\ s = (b ++ String sep a)%string.
Proof.
  induction s as [|d s IH]; simpl; [discriminate|].
  destruct (Ascii.eqb_spec d sep) as [->|N]; simpl.
  - intros _. now exists EmptyString, s.
  - intros H. destruct (IH H) as (b & a & -> & Hb & ->).
    exists (String d b), a. simpl.
    destruct (Ascii.eqb_spec d sep); [contradiction|]. now rewrite Hb.
Qed.

(** The text before the first separator is empty only if the string
    is empty or starts with the separator. *)
Lemma Cut_before_nonempty (s : string) (sep : ascii) :
  s <> EmptyString ->
  strings.HasPrefix s (String sep EmptyString) = false ->
  fst (fst (strings.Cut s sep)) <> EmptyString.
Proof.
  destruct s as [|d s]; [contradiction|]. intros _.
  unfold strings.HasPrefix. simpl.
  destruct (ascii_dec sep d) as [->|N].
  - now destruct s.
  - intros _. destruct (Ascii.eqb_spec d sep) as [->|]; [contradiction|].
    destruct (strings.Cut s sep) as [[b a] f]. simpl. discriminate.
Qed.

(** ** The mechanism parsers *)

(** Splits the result of a parser into the paths that lead to it. *)
Ltac parser_paths H :=
  cbv zeta in H;
  repeat (match type of H with
          | context [match ?x with _ => _ end] => destruct x eqn:?
          end);
  try discriminate H.

Lemma parseAll_fields (q : Qualifier) (rest : string) (m : Mechanism) :
  parseAll q rest = Ok m -> kindFields m /\ Qual m = q.
Proof.
  unfold parseAll. intros H. parser_paths H.
  injection H as <-. unfold kindFields. simpl. auto 10.
Qed.

Lemma parseIP4_fields (q : Qualifier) (rest : string) (m : Mechanism) :
  parseIP4 q rest = Ok m -> kindFields m /\ Qual m = q.
Proof.
  unfold parseIP4. intros H. parser_paths H.
  injection H as <-. unfold kindFields. simpl.
  repeat split; auto. right. left. repeat split; auto. discriminate.
Qed.

Lemma parseIP6_fields (q : Qualifier) (rest : string) (m : Mechanism) :
  parseIP6 q rest = Ok m -> kindFields m /\ Qual m = q.
Proof.
  unfold parseIP6. intros H. parser_paths H.
  injection H as <-. unfold kindFields. simpl.
  repeat split; auto. right. left. repeat split; auto. discriminate.
Qed.

Lemma parseA_fields (q : Qualifier) (rest : string) (m : Mechanism) :
  parseA idna q rest = Ok m -> kindFields m /\ Qual m = q.
Proof.
  unfold parseA. intros H. parser_paths H;
    injection H as <-; unfold kindFields; simpl; auto 10.
Qed.

Lemma parseMX_fields (q : Qualifier) (rest : string) (m : Mechanism) :
  parseMX idna q rest = Ok m -> kindFields m /\ Qual m = q.
Proof.
  unfold parseMX. intros H. parser_paths H;
    injection H as <-; unfold kindFields; simpl; auto 10.
Qed.

(** The parsers tried in order give a mechanism or an error, never
    neither; a mechanism has the fields of its kind and the qualifier
    of the term. *)
Lemma tryParsers_outcome (q : Qualifier) (rest : string) :
  (exists m, tryParsers (mechParsers idna) q rest (None, None)
             = (Some m, None)
             /\ kindFields m /\ Qual m = q)
  \/ (exists e, tryParsers (mechParsers idna) q rest (None, None)
                = (None, Some e)).
Proof.
  unfold mechParsers. simpl.
  destruct (parseAll q rest) eqn:P1;
    [left; eexists; split; [reflexivity|now apply parseAll_fields with rest]|].
  destruct (parseIP4 q rest) eqn:P2;
    [left; eexists; split; [reflexivity|now apply parseIP4_fields with rest]|].
  destruct (parseIP6 q rest) eqn:P3;
    [left; eexists; split; [reflexivity|now apply parseIP6_fields with rest]|].
  destruct (parseA idna q rest) eqn:P4;
    [left; eexists; split; [reflexivity|now apply parseA_fields with rest]|].
  destruct (parseMX idna q rest) eqn:P5;
    [left; eexists; split; [reflexivity|now apply parseMX_fields with rest]|].
  right. now eexists.
Qed.

(** A term that starts with no mechanism keyword is refused by every
    parser; the error kept is the last one. *)
Lemma tryParsers_no_keyword (q : Qualifier) (rest : string) :
  noMechanismKeyword rest ->
  tryParsers (mechParsers idna) q rest (None, None)
  = (None, Some (errors_New "no match")).
Proof.
  intros (Hall & H4 & H6 & Ha & Hmx).
  unfold mechParsers, tryParsers, parseAll, parseIP4, parseIP6, parseA,
    parseMX.
  destruct (String.eqb_spec rest "all"); [contradiction|].
  rewrite H4, H6, Ha, Hmx. reflexivity.
Qed.

(** ** The loop over the terms *)

Lemma parseTokens_spec (tokens : list string) :
  forall (mechs : list Mechanism) (rec : Record_),
    parseTokens idna tokens mechs = Ok rec ->
    exists ms, Mechs rec = mechs ++ ms
               /\ Forall2 (termMechanism idna) tokens ms
               /\ Forall kindFields ms
               /\ Redirect rec = None /\ Exp rec = None
               /\ Unknown rec = [].
Proof.
  induction tokens as [|tok more IH]; intros mechs rec; cbn [parseTokens].
  - intros [= <-]. exists []. simpl. rewrite app_nil_r. auto 10.
  - destruct (stripQualifier tok) as [q rest] eqn:SQ.
    destruct (tryParsers_outcome q rest) as [(m & T & KF & HQ)|(e & T)];
      rewrite T; [|discriminate].
    intros H. destruct (IH _ _ H) as (ms & HM & F2 & FK & R & E & U).
    exists (m :: ms). rewrite HM, <- app_assoc. simpl.
    repeat split; auto.
    constructor; [|exact F2].
    unfold termMechanism. rewrite SQ. simpl. split; [exact T|exact HQ].
Qed.

(** C9: when [Parse] accepts a record, [Mechs] holds, term by term
    and in the order of the terms of the input (the white-space
    separated fields after the version tag), the mechanism the parsers
    make of each term; and each mechanism carries the fields of its
    kind only: a network for ip4 and ip6 alone, a domain or masks for a
    and mx alone, never a macro. *)
Theorem Parse_order_and_fields (raw : string) (rec : Record_) :
  Parse idna raw = Ok rec ->
  Forall2 (termMechanism idna)
          (tl (strings.Fields (strings.TrimSpace raw))) (Mechs rec)
  /\ Forall kindFields (Mechs rec).
Proof.
  unfold Parse. destruct (tokenizer raw) as [tokens|e] eqn:T;
    [|discriminate].
  intros H. apply parseTokens_spec in H.
  destruct H as (ms & HM & F2 & FK & _). simpl in HM. subst ms.
  split; [|exact FK].
  unfold tokenizer in T.
  destruct (negb _); [discriminate|].
  destruct (List.length _ =? 0); [discriminate|].
  injection T as <-. exact F2.
Qed.

Lemma parseTokens_fails (tok : string) (tokens : list string) :
  In tok tokens ->
  noMechanismKeyword (snd (stripQualifier tok)) ->
  forall mechs, exists perr,
    parseTokens idna tokens mechs = Err (Errorf_v "permerror: %v" perr).
Proof.
  intros HIn HK.
  induction tokens as [|t more IH]; [contradiction|].
  intros mechs. cbn [parseTokens].
  destruct (stripQualifier t) as [q rest] eqn:SQ.
  destruct (tryParsers_outcome q rest) as [(m & T & _)|(e & T)];
    rewrite T; [|now eexists].
  destruct HIn as [->|HIn]; [|now apply IH].
  rewrite SQ in HK. simpl in HK.
  rewrite (tryParsers_no_keyword q rest HK) in T. discriminate.
Qed.

(** C4, amended: [Parse] has no modifiers.  A record it accepts has no
    redirect, no exp and no unknown modifier; and a record with a term
    that starts with no mechanism keyword, as every [redirect=],
    [exp=] or other [name=value] term does unless its name starts with
    a or mx, is refused with a permerror, at its first occurrence. *)
Theorem Parse_no_modifiers :
  (forall (raw : string) (rec : Record_),
      Parse idna raw = Ok rec ->
      Redirect rec = None /\ Exp rec = None /\ Unknown rec = [])
  /\ (forall (raw : string) (tokens : list string) (tok : string),
         tokenizer raw = Ok tokens ->
         In tok tokens ->
         noMechanismKeyword (snd (stripQualifier tok)) ->
         exists perr,
           Parse idna raw = Err (Errorf_v "permerror: %v" perr)).
Proof.
  split.
  - intros raw rec. unfold Parse.
    destruct (tokenizer raw); [|discriminate].
    intros H. apply parseTokens_spec in H.
    destruct H as (_ & _ & _ & _ & R & E & U). auto.
  - intros raw tokens tok T HIn HK. unfold Parse. rewrite T.
    now apply parseTokens_fails with tok.
Qed.

(** ** mx terms *)

Lemma toInt_error (s : string) (max : Z) (e : error) :
  toInt s max = Err e -> e = errors_New "cidr out of range".
Proof.
  unfold toInt. destruct (strconv.Atoi s); [|now intros [= <-]].
  destruct (_ || _); [now intros [= <-]|discriminate].
Qed.

Lemma parseMasks_error (maskstr : string) (e : error) :
  parseMasks maskstr = Err e -> exists msg, e = errors_New msg.
Proof.
  unfold parseMasks. intros H. parser_paths H;
    injection H as <-;
    try match goal with
        | T : toInt _ _ = Err _ |- _ => apply toInt_error in T; subst
        end; eexists; reflexivity.
Qed.

(** The branch of [parseMX] that reports invalid syntax is dead. *)
Lemma parseMX_never_invalid_syntax (q : Qualifier) (rest arg : string) :
  parseMX idna q rest
  <> Err (Errorf_q "invalid mx-mechanism syntax %q" arg).
Proof.
  unfold parseMX. intros H. parser_paths H;
    repeat match goal with
           | T : parseMasks _ = Err _ |- _ =>
               apply parseMasks_error in T; destruct T as [msg ->]
           | T : (if _ then _ else _) = Err ?e |- _ =>
               is_var e; parser_paths T; injection T as <-
           end; try discriminate H.
  match goal with
  | P : strings.HasPrefix _ EmptyString = false |- _ =>
      unfold strings.HasPrefix in P;
      destruct (strings.drop 2 rest); simpl in P; discriminate P
  end.
Qed.

(** C10, amended: for a term [mx] followed by a non-empty text that
    starts with neither a colon nor a slash, [parseMX] never reports
    invalid syntax; it takes the text up to the first slash, which is
    not empty, as the domain: it reports a bad domain when
    [ValidateDomain] rejects that text, and when [ValidateDomain]
    accepts it the term is accepted with that domain if nothing follows
    the slash, and else has the fate [parseMasks] gives the text after
    the slash. *)
Theorem parseMX_without_colon (q : Qualifier) (spec : string) :
  spec <> EmptyString ->
  strings.HasPrefix spec ":" = false ->
  strings.HasPrefix spec "/" = false ->
  let domainPart := fst (fst (strings.Cut spec "/")) in
  let maskPart := snd (fst (strings.Cut spec "/")) in
  let mx (m : Z * Z) :=
    {| Qual := q; Kind := "mx"; Net := None; Domain := domainPart;
       Mask4 := fst m; Mask6 := snd m; Macro := EmptyString |} in
  domainPart <> EmptyString
  /\ (forall arg, parseMX idna q ("mx" ++ spec)
                  <> Err (Errorf_q "invalid mx-mechanism syntax %q" arg))
  /\ (forall e, ValidateDomain idna domainPart = Err e ->
                parseMX idna q ("mx" ++ spec)
                = Err (Errorf_q "bad domain %q" domainPart))
  /\ (forall v, ValidateDomain idna domainPart = Ok v ->
                (maskPart = EmptyString ->
                 parseMX idna q ("mx" ++ spec) = Ok (mx ((-1)%Z, (-1)%Z)))
                /\ (maskPart <> EmptyString ->
                    parseMX idna q ("mx" ++ spec)
                    = match parseMasks maskPart with
                      | Ok m => Ok (mx m)
                      | Err e => Err e
                      end)).
Proof.
  intros Hne Hcolon Hslash domainPart maskPart mx.
  assert (domainPart <> EmptyString) as HD
      by (now apply Cut_before_nonempty).
  split; [exact HD|]. split; [intros arg; apply parseMX_never_invalid_syntax|].
  assert (forall r : result Mechanism,
             (match (if negb (String.eqb domainPart EmptyString)
                    then match ValidateDomain idna domainPart with
                         | Err _ => Err (Errorf_q "bad domain %q" domainPart)
                         | Ok _ => Ok domainPart
                         end
                    else Ok EmptyString) with
             | Err e => Err e
             | Ok domain =>
                 if negb (String.eqb maskPart EmptyString) then
                   match parseMasks maskPart with
                   | Err e => Err e
                   | Ok m =>
                       Ok {| Qual := q; Kind := "mx"; Net := None;
                             Domain := domain; Mask4 := fst m;
                             Mask6 := snd m; Macro := EmptyString |}
                   end
                 else Ok {| Qual := q; Kind := "mx"; Net := None;
                            Domain := domain; Mask4 := (-1)%Z;
                            Mask6 := (-1)%Z; Macro := EmptyString |}
             end) = r ->
             parseMX idna q ("mx" ++ spec) = r) as Unfold.
  { intros r <-. unfold parseMX.
    change (strings.HasPrefix ("mx" ++ spec) "mx")
      with (strings.HasPrefix spec EmptyString).
    change (strings.drop 2 ("mx" ++ spec)) with spec.
    replace (strings.HasPrefix spec EmptyString) with true
      by (now destruct spec).
    cbv zeta. simpl negb.
    destruct (String.eqb_spec spec EmptyString); [contradiction|].
    rewrite Hslash.
    unfold strings.TrimPrefix at 1. rewrite Hcolon.
    subst domainPart maskPart.
    destruct (strings.Cut spec "/") as [[d m] f]. reflexivity. }
  destruct (String.eqb_spec domainPart EmptyString) as [|_];
    [contradiction|]. simpl negb in Unfold.
  split.
  - intros e HV. apply Unfold. now rewrite HV.
  - intros v HV. rewrite HV in Unfold. split; intros HM; apply Unfold.
    + rewrite HM. reflexivity.
    + destruct (String.eqb_spec maskPart EmptyString); [contradiction|].
      simpl. subst mx. destruct (parseMasks maskPart); reflexivity.
Qed.

(** ** ip4 and ip6 terms *)

Lemma maskBytes_zero (l : nat) : net.maskBytes l 0 = repeat 0%Z l.
Proof. induction l; simpl; [reflexivity|now f_equal]. Qed.

Lemma forallb_zero_repeat (l : nat) :
  forallb (Z.eqb 0) (repeat 0%Z l) = true.
Proof. induction l; simpl; auto. Qed.

(** The number of leading ones of a CIDR mask is the prefix length it
    was made from. *)
Lemma simpleMaskLength_maskBytes (l : nat) :
  forall n, (0 <= n <= 8 * Z.of_nat l)%Z ->
            net.simpleMaskLength (net.maskBytes l n) = n.
Proof.
  induction l as [|l IH]; intros n Hn.
  - simpl. lia.
  - cbn [net.maskBytes]. destruct (8 <=? n)%Z eqn:E.
    + apply Z.leb_le in E. cbn [net.simpleMaskLength]. simpl Z.eqb.
      rewrite IH by lia.
      destruct (n - 8 =? -1)%Z eqn:E'; [apply Z.eqb_eq in E'; lia|lia].
    + apply Z.leb_gt in E. cbn [net.simpleMaskLength].
      rewrite maskBytes_zero, forallb_zero_repeat.
      assert (n = 0 \/ n = 1 \/ n = 2 \/ n = 3 \/ n = 4 \/ n = 5
              \/ n = 6 \/ n = 7)%Z as C by lia.
      repeat (destruct C as [->|C]; [reflexivity|]). subst n. reflexivity.
Qed.

Lemma Size_CIDRMask (n bits : Z) (m : net.IPMask) :
  net.CIDRMask n bits = Some m -> fst (net.Size m) = n.
Proof.
  unfold net.CIDRMask.
  destruct (negb (bits =? 32)%Z && negb (bits =? 128)%Z) eqn:B;
    [discriminate|].
  destruct ((n <? 0)%Z || (bits <? n)%Z) eqn:R; [discriminate|].
  intros [= <-].
  apply orb_false_iff in R. destruct R as [R1 R2].
  apply Z.ltb_ge in R1, R2.
  assert (bits = 32 \/ bits = 128)%Z as [-> | ->].
  { destruct (Z.eqb_spec bits 32); [now left|].
    destruct (Z.eqb_spec bits 128); [now right|discriminate]. }
  - unfold net.Size.
    rewrite (simpleMaskLength_maskBytes (Z.to_nat (32 / 8)) n)
      by (change (Z.to_nat (32 / 8)) with 4; lia).
    destruct (n =? -1)%Z eqn:E; [apply Z.eqb_eq in E; lia|reflexivity].
  - unfold net.Size.
    rewrite (simpleMaskLength_maskBytes (Z.to_nat (128 / 8)) n)
      by (change (Z.to_nat (128 / 8)) with 16; lia).
    destruct (n =? -1)%Z eqn:E; [apply Z.eqb_eq in E; lia|reflexivity].
Qed.

(** What an accepted CIDR text is made of. *)
Lemma ParseCIDR_inv (s : string) (ip : net.IP) (netw : net.IPNet) :
  net.ParseCIDR s = Some (ip, netw) ->
  exists a n,
    net.ParseAddr (fst (fst (strings.Cut s "/"))) = Some a
    /\ ip = net.As16 a
    /\ net.dtoi (snd (fst (strings.Cut s "/")))
       = (n, String.length (snd (fst (strings.Cut s "/"))), true)
    /\ (0 <= n <= net.BitLen a)%Z
    /\ net.CIDRMask n (net.BitLen a) = Some (net.Mask netw).
Proof.
  unfold net.ParseCIDR.
  destruct (strings.Cut s "/") as [[addr mask] found]. simpl.
  destruct (negb found); [discriminate|].
  destruct (net.ParseAddr addr) as [a|]; [|discriminate].
  destruct (negb (isEmpty (net.Zone a))); [discriminate|].
  destruct (net.dtoi mask) as [[n i] ok].
  destruct (negb ok || negb (i =? String.length mask) || (n <? 0)%Z
            || (net.BitLen a <? n)%Z) eqn:G; [discriminate|].
  destruct (net.CIDRMask n (net.BitLen a)) as [m|] eqn:M; [|discriminate].
  destruct (net.IP_Mask (net.As16 a) m); [|discriminate].
  intros [= <- <-]. exists a, n. simpl.
  repeat (apply orb_false_iff in G; destruct G as [G ?]).
  apply negb_false_iff in G. subst ok.
  match goal with
  | E : negb (i =? _) = false |- _ =>
      apply negb_false_iff, Nat.eqb_eq in E; subst i
  end.
  repeat split; auto; apply Z.ltb_ge; assumption.
Qed.

(** Appending the default prefix length leaves the address text as it
    is. *)
Lemma cidr_text_address (arg d : string) :
  fst (fst (strings.Cut
              (if negb (strings.ContainsRune arg "/")
               then (arg ++ String "/" d)%string else arg) "/"))
  = fst (fst (strings.Cut arg "/")).
Proof.
  destruct (strings.ContainsRune arg "/") eqn:C; simpl; [reflexivity|].
  now rewrite Cut_app_sep, Cut_no_sep.
Qed.

(** X26: an ip6 term whose address has a four-byte form, written as a
    dotted quad or as an IPv4-mapped address, is refused: by
    [parseIP6] as a bad CIDR, and then by every other parser. *)
Lemma parseIP6_rejects_IPv4_form (q : Qualifier) (arg : string)
      (a : net.Addr) :
  cidrAddress arg = Some a ->
  hasIPv4Form a ->
  (exists cidr,
      parseIP6 q ("ip6:" ++ arg) = Err (Errorf_q "bad ipcidr %q" cidr))
  /\ tryParsers (mechParsers idna) q ("ip6:" ++ arg) (None, None)
     = (None, Some (errors_New "no match")).
Proof.
  unfold cidrAddress, hasIPv4Form. intros HA H4.
  assert (exists cidr, parseIP6 q ("ip6:" ++ arg)
                       = Err (Errorf_q "bad ipcidr %q" cidr)) as P6.
  { unfold parseIP6.
    rewrite (TrimPrefix_app "ip6:" arg), (HasPrefix_app "ip6:" arg).
    cbn [negb].
    destruct (net.ParseCIDR _) as [[ip netw]|] eqn:PC; [|now eexists].
    apply ParseCIDR_inv in PC. destruct PC as (a' & n & PA & -> & _).
    change ("/128") with (String "/" "128") in PA.
    rewrite cidr_text_address, HA in PA. injection PA as <-.
    destruct (net.To4 (net.As16 a)); [now eexists|contradiction]. }
  split; [exact P6|]. destruct P6 as [cidr P6].
  unfold mechParsers, tryParsers. rewrite P6. reflexivity.
Qed.

(** X27: an ip4 term whose address has no four-byte form, an IPv6
    address that is not IPv4-mapped, is refused: by [parseIP4] as a bad
    CIDR, and then by every other parser. *)
Lemma parseIP4_rejects_IPv6_only (q : Qualifier) (arg : string)
      (a : net.Addr) :
  cidrAddress arg = Some a ->
  ~ hasIPv4Form a ->
  (exists cidr,
      parseIP4 q ("ip4:" ++ arg) = Err (Errorf_q "bad ipcidr %q" cidr))
  /\ tryParsers (mechParsers idna) q ("ip4:" ++ arg) (None, None)
     = (None, Some (errors_New "no match")).
Proof.
  unfold cidrAddress, hasIPv4Form. intros HA H4.
  assert (exists cidr, parseIP4 q ("ip4:" ++ arg)
                       = Err (Errorf_q "bad ipcidr %q" cidr)) as P4.
  { unfold parseIP4.
    rewrite (TrimPrefix_app "ip4:" arg), (HasPrefix_app "ip4:" arg).
    cbn [negb].
    destruct (net.ParseCIDR _) as [[ip netw]|] eqn:PC; [|now eexists].
    apply ParseCIDR_inv in PC. destruct PC as (a' & n & PA & -> & _).
    change ("/32") with (String "/" "32") in PA.
    rewrite cidr_text_address, HA in PA. injection PA as <-.
    destruct (net.To4 (net.As16 a)); [|now eexists].
    exfalso. apply H4. discriminate. }
  split; [exact P4|]. destruct P4 as [cidr P4].
  unfold mechParsers, tryParsers. rewrite P4. reflexivity.
Qed.

Lemma ContainsRune_app_sep (s t : string) (sep : ascii) :
  strings.ContainsRune (s ++ String sep t) sep = true.
Proof.
  induction s as [|d s IH]; simpl.
  - now rewrite Ascii.eqb_refl.
  - rewrite IH. apply orb_true_r.
Qed.

Lemma tryParsers_ip4_refused (q : Qualifier) (arg : string) (e : error) :
  parseIP4 q ("ip4:" ++ arg) = Err e ->
  tryParsers (mechParsers idna) q ("ip4:" ++ arg) (None, None)
  = (None, Some (errors_New "no match")).
Proof.
  intros P. unfold mechParsers, tryParsers. rewrite P. reflexivity.
Qed.

Lemma tryParsers_ip6_refused (q : Qualifier) (arg : string) (e : error) :
  parseIP6 q ("ip6:" ++ arg) = Err e ->
  tryParsers (mechParsers idna) q ("ip6:" ++ arg) (None, None)
  = (None, Some (errors_New "no match")).
Proof.
  intros P. unfold mechParsers, tryParsers. rewrite P. reflexivity.
Qed.

(** An ip4 term with an explicit prefix length is accepted only if the
    length is a decimal number from 0 to 32. *)
Lemma parseIP4_prefix_range (q : Qualifier) (addr pfx : string)
      (m : Mechanism) :
  strings.ContainsRune addr "/" = false ->
  parseIP4 q ("ip4:" ++ addr ++ "/" ++ pfx) = Ok m ->
  prefixInRange pfx 32.
Proof.
  intros HC. change ("/" ++ pfx)%string with (String "/" pfx).
  unfold parseIP4.
  rewrite TrimPrefix_app, HasPrefix_app, ContainsRune_app_sep. cbn [negb].
  destruct (net.ParseCIDR _) as [[ip netw]|] eqn:PC; [|discriminate].
  apply ParseCIDR_inv in PC.
  rewrite (Cut_app_sep _ _ _ HC) in PC. simpl in PC.
  destruct PC as (a & n & _ & -> & D & Hn & M).
  destruct (net.To4 _); [|discriminate].
  apply Size_CIDRMask in M.
  destruct (net.Size (net.Mask netw)) as [ones bits]. simpl in M. subst.
  destruct (32 <? n)%Z eqn:G; [discriminate|]. apply Z.ltb_ge in G.
  intros _. exists n. split; [exact D|lia].
Qed.

(** An ip6 term with an explicit prefix length is accepted only if the
    length is a decimal number from 0 to 128. *)
Lemma parseIP6_prefix_range (q : Qualifier) (addr pfx : string)
      (m : Mechanism) :
  strings.ContainsRune addr "/" = false ->
  parseIP6 q ("ip6:" ++ addr ++ "/" ++ pfx) = Ok m ->
  prefixInRange pfx 128.
Proof.
  intros HC. change ("/" ++ pfx)%string with (String "/" pfx).
  unfold parseIP6.
  rewrite TrimPrefix_app, HasPrefix_app, ContainsRune_app_sep. cbn [negb].
  destruct (net.ParseCIDR _) as [[ip netw]|] eqn:PC; [|discriminate].
  apply ParseCIDR_inv in PC.
  rewrite (Cut_app_sep _ _ _ HC) in PC. simpl in PC.
  destruct PC as (a & n & _ & -> & D & Hn & M).
  intros _. exists n. split; [exact D|].
  destruct a; simpl in Hn; lia.
Qed.

(** X28: an ip4 or ip6 term whose text after the slash is not a
    decimal prefix length within 0 to 32, or 0 to 128, is refused by
    every parser. *)
Lemma prefix_out_of_range_refused (q : Qualifier) (addr pfx : string) :
  strings.ContainsRune addr "/" = false ->
  (~ prefixInRange pfx 32 ->
   tryParsers (mechParsers idna) q ("ip4:" ++ addr ++ "/" ++ pfx)
              (None, None)
   = (None, Some (errors_New "no match")))
  /\ (~ prefixInRange pfx 128 ->
      tryParsers (mechParsers idna) q ("ip6:" ++ addr ++ "/" ++ pfx)
                 (None, None)
      = (None, Some (errors_New "no match"))).
Proof.
  intros HC. split; intros HR.
  - destruct (parseIP4 q ("ip4:" ++ addr ++ "/" ++ pfx)) as [m|e] eqn:P.
    + exfalso. apply HR. exact (parseIP4_prefix_range q addr pfx m HC P).
    + exact (tryParsers_ip4_refused q _ e P).
  - destruct (parseIP6 q ("ip6:" ++ addr ++ "/" ++ pfx)) as [m|e] eqn:P.
    + exfalso. apply HR. exact (parseIP6_prefix_range q addr pfx m HC P).
    + exact (tryParsers_ip6_refused q _ e P).
Qed.

(** A dotted quad has four bytes, hence a four-byte form. *)
Lemma parseIPv4Fields_length (s : string) :
  forall fields val digLen prev b,
    List.length fields <= 3 ->
    net.parseIPv4Fields s fields val digLen prev = Some b ->
    List.length b = 4.
Proof.
  induction s as [|c r IH]; intros fields val digLen prev b HL; simpl.
  - destruct (List.length fields <? 3) eqn:E; [discriminate|].
    apply Nat.ltb_ge in E. intros [= <-].
    rewrite length_app. simpl. lia.
  - destruct (isDigit c).
    + destruct ((digLen =? 1) && (val =? 0)%Z); [discriminate|].
      destruct (255 <? val * 10 + digitVal c)%Z; [discriminate|].
      now apply IH.
    + destruct (Ascii.eqb c "."); [|discriminate].
      destruct prev as [p|]; [|discriminate].
      destruct (isEmpty r || Ascii.eqb p "."); [discriminate|].
      destruct (List.length fields =? 3) eqn:E; [discriminate|].
      apply Nat.eqb_neq in E. apply IH.
      rewrite length_app. simpl. lia.
Qed.

Lemma dotted_quad_IPv4_form (s : string) (b : list Z) :
  net.parseIPv4 s = Some b -> hasIPv4Form (net.Addr4 b).
Proof.
  intros P. apply parseIPv4Fields_length in P; [|simpl; lia].
  do 5 (destruct b as [|? b]; try discriminate P).
  unfold hasIPv4Form. simpl. discriminate.
Qed.

Lemma mapped_IPv4_form (b : list Z) (zone : string) :
  List.length b = 4 ->
  hasIPv4Form (net.Addr6 (net.v4InV6Prefix ++ b) zone).
Proof.
  intros P. do 5 (destruct b as [|? b]; try discriminate P).
  unfold hasIPv4Form. simpl. discriminate.
Qed.

(** ** The version tag *)

Lemma ToLower_app (s t : string) :
  strings.ToLower (s ++ t) = (strings.ToLower s ++ strings.ToLower t)%string.
Proof. induction s; simpl; [reflexivity|now f_equal]. Qed.

Lemma append_assoc (s t u : string) :
  ((s ++ t) ++ u = s ++ (t ++ u))%string.
Proof. induction s; simpl; [reflexivity|now f_equal]. Qed.

(** A field being read ends up at the head of the fields, with what
    is read after it. *)
Lemma fields_head (s : string) :
  forall skip cur, cur <> EmptyString ->
    exists x fs, strings.fields skip cur s = (cur ++ x)%string :: fs.
Proof.
  induction s as [|c r IH]; intros skip cur HC.
  - simpl. unfold strings.flush. destruct cur; [contradiction|].
    exists EmptyString, []. simpl. f_equal. f_equal.
    clear. induction cur; simpl; [reflexivity|now f_equal].
  - cbn [strings.fields]. destruct skip as [|k]; [|now apply IH].
    destruct (strings.spaceWidth (String c r)) as [|k].
    + destruct (IH 0 (cur ++ String c EmptyString)%string) as (x & fs & E).
      { destruct cur; discriminate. }
      rewrite E. exists (String c x), fs. now rewrite append_assoc.
    + unfold strings.flush. destruct cur as [|d cur]; [contradiction|].
      simpl. exists EmptyString. eexists. f_equal. f_equal.
      clear. induction cur; simpl; [reflexivity|now f_equal].
Qed.

(** What the version test of [tokenizer] amounts to on the tokens: a
    record that passes it has a first token with [v=spf1], in any
    case, as a prefix. *)
Lemma version_prefix_first_token (s : string) :
  strings.HasPrefix (strings.ToLower s) "v=spf1" = true ->
  exists f fs, strings.Fields s = f :: fs
               /\ strings.HasPrefix (strings.ToLower f) "v=spf1" = true.
Proof.
  intros H. apply HasPrefix_inv in H. simpl String.length in H.
  do 6 (destruct s as [|? s]; [discriminate H|]).
  simpl in H. injection H as H1 H2 H3 H4 H5 H6.
  assert (forall c l : ascii,
             strings.lowerByte c = l -> strings.asciiSpace l = false ->
             (byte_val l <? 128)%Z = true ->
             forall r, strings.spaceWidth (String c r) = 0) as NS.
  { intros c l <- HS HB r. unfold strings.spaceWidth.
    unfold strings.lowerByte, strings.asciiSpace in *.
    destruct c as [[] [] [] [] [] [] [] []]; try discriminate HS;
      try discriminate HB; vm_compute; destruct r as [|? [|? ?]];
      reflexivity. }
  unfold strings.Fields. cbn [strings.fields].
  rewrite (NS _ _ H1), (NS _ _ H2), (NS _ _ H3), (NS _ _ H4), (NS _ _ H5),
    (NS _ _ H6) by reflexivity.
  simpl append.
  match goal with
  | |- context [strings.fields 0 ?cur s] =>
      destruct (fields_head s 0 cur) as (x & fs & E); [discriminate|];
      rewrite E; exists (cur ++ x)%string, fs
  end.
  split; [reflexivity|].
  rewrite ToLower_app. cbn [strings.ToLower].
  rewrite H1, H2, H3, H4, H5, H6. apply (HasPrefix_app "v=spf1").
Qed.

(** X29: an input whose first token does not even start with [v=spf1], in
    any case, or that has no token, fails with the missing-version
    error; and one that has the version and nothing after it fails
    with the no-terms error. *)
Lemma tokenizer_errors (raw : string) :
  ((forall f fs, strings.Fields (strings.TrimSpace raw) = f :: fs ->
                 strings.HasPrefix (strings.ToLower f) "v=spf1" = false) ->
   tokenizer raw = Err (errors_New "missing v=spf1"))
  /\ (strings.HasPrefix (strings.ToLower (strings.TrimSpace raw)) "v=spf1"
      = true ->
      tl (strings.Fields (strings.TrimSpace raw)) = [] ->
      tokenizer raw = Err (errors_New "no terms")).
Proof.
  unfold tokenizer. split.
  - intros H.
    destruct (strings.HasPrefix (strings.ToLower (strings.TrimSpace raw))
                                "v=spf1") eqn:P; [|reflexivity].
    destruct (version_prefix_first_token _ P) as (f & fs & E & PF).
    rewrite (H f fs E) in PF. discriminate.
  - intros -> ->. reflexivity.
Qed.

(** ** Label characters *)

Lemma checkLabels_lengths (labels : list string) :
  Forall (fun lbl => 1 <= String.length lbl <= 63) labels ->
  checkLabels labels = None.
Proof.
  induction 1 as [|lbl rest [H1 H2] _ IH]; simpl; [reflexivity|].
  destruct (Nat.eqb_spec (String.length lbl) 0); [lia|].
  destruct (Nat.ltb_spec 63 (String.length lbl)); [lia|]. exact IH.
Qed.


End ParserProperties.

(** * The package on concrete inputs *)

(** C5, the code at a record whose first token is longer than the
    version tag: the first field of [v=spf1x -all] is [v=spf1x], which is
    not [v=spf1] in any case, and [tokenizer] drops it as if it were the
    version tag and returns the term [-all] without error. *)
Theorem tokenizer_accepts_longer_version_token :
  hd EmptyString (strings.Fields "v=spf1x -all") = "v=spf1x"
  /\ strings.ToLower "v=spf1x" <> "v=spf1"
  /\ tokenizer "v=spf1x -all" = Ok ["-all"].
Proof. repeat split; [discriminate]. Qed.

(** C6, the code at an ip4 term with an IPv4-mapped IPv6 literal: the
    address of [ip4:::ffff:1.2.3.4] is read by the IPv6 syntax, it has a
    four-byte form, and [parseIP4] accepts the term, with the network
    ::/32 of sixteen bytes; so [Parse] accepts a record with this term. *)
Theorem parseIP4_accepts_mapped_IPv6 :
  cidrAddress "::ffff:1.2.3.4"
  = Some (net.Addr6 [0;0;0;0;0;0;0;0;0;0;255;255;1;2;3;4]%Z EmptyString)
  /\ parseIP4 QPlus "ip4:::ffff:1.2.3.4"
     = Ok {| Qual := QPlus; Kind := "ip4";
             Net := Some {| net.IPNet_IP := repeat 0%Z 16;
                            net.Mask := [255;255;255;255]%Z
                                        ++ repeat 0%Z 12 |};
             Domain := EmptyString; Mask4 := 0; Mask6 := 0;
             Macro := EmptyString |}
  /\ forall idna, exists rec,
      Parse idna "v=spf1 ip4:::ffff:1.2.3.4" = Ok rec
      /\ List.length (Mechs rec) = 1.
Proof.
  split; [reflexivity|]. split; [reflexivity|].
  intros idna. eexists. split; reflexivity.
Qed.

(** ** Witnesses *)

Lemma CheckHost_malformed_domain_witness :
  ValidateDomain idna_plain "localhost" = Err ErrSingleLabel
  /\ (In ErrSingleLabel domainSentinels
      /\ forall log,
          CheckHost idna_plain unit unit
                    (fetch_const ("v=spf1 -all", None))
                    sampleChecker tt sampleIP "localhost"
                    "user@example.com" log
          = ({| Code := None_; Cause := Some ErrSingleLabel |}, None, log)).
Proof.
  split; [reflexivity|].
  apply (CheckHost_malformed_domain idna_plain unit unit
           (fetch_const ("v=spf1 -all", None))
           sampleChecker tt sampleIP "localhost" "user@example.com"
           ErrSingleLabel).
  reflexivity.
Defined.

Lemma CheckHost_minus_all_Neutral_witness :
  ValidateDomain idna_plain "Example.COM." = Ok "example.com"
  /\ fetch_const ("v=spf1 -all", None) tt "example.com"
                 (Resolver unit sampleChecker)
     = ("v=spf1 -all", None)
  /\ outcome (CheckHost idna_plain unit unit
                        (fetch_const ("v=spf1 -all", None))
                        sampleChecker tt sampleIP "Example.COM."
                        "user@example.com")
     = ({| Code := Neutral;
           Cause := Some (errors_New "policy exists but no assertion") |},
        None).
Proof.
  split; [reflexivity|]. split; [reflexivity|].
  apply (CheckHost_minus_all_Neutral idna_plain unit unit
           (fetch_const ("v=spf1 -all", None))
           sampleChecker tt sampleIP "Example.COM." "user@example.com"
           "example.com"); reflexivity.
Defined.

Lemma CheckHost_mutual_redirect_witness :
  ValidateDomain idna_plain "a.example.com" = Ok "a.example.com"
  /\ ValidateDomain idna_plain "b.example.com" = Ok "b.example.com"
  /\ Code (fst (outcome (CheckHost idna_plain unit unit fetch_mutual
                                   sampleChecker tt sampleIP
                                   "a.example.com" "user@a.example.com")))
     = Neutral
  /\ snd (outcome (CheckHost idna_plain unit unit fetch_mutual
                             sampleChecker tt sampleIP
                             "a.example.com" "user@a.example.com"))
     = None
  /\ lookups (CheckHost idna_plain unit unit fetch_mutual
                        sampleChecker tt sampleIP
                        "a.example.com" "user@a.example.com")
     = ["a.example.com"].
Proof.
  split; [reflexivity|]. split; [reflexivity|].
  apply (proj2 (CheckHost_mutual_redirect idna_plain unit unit fetch_mutual)
               sampleChecker tt sampleIP "a.example.com" "b.example.com"
               "user@a.example.com" "a.example.com" "b.example.com");
    reflexivity.
Defined.

Lemma CheckHost_no_record_never_None_nil_witness :
  ValidateDomain idna_plain "example.com" = Ok "example.com"
  /\ outcome (CheckHost idna_plain unit unit
                (fetch_const (EmptyString, Some ErrNoDNSrecord))
                sampleChecker tt sampleIP "example.com" "user@example.com")
     = ({| Code := None_; Cause := Some ErrNoDNSrecord |},
        Some ErrNoDNSrecord)
  /\ outcome (CheckHost idna_plain unit unit
                (fetch_const (EmptyString, None))
                sampleChecker tt sampleIP "example.com" "user@example.com")
     = (zeroCheckHostResult, None).
Proof.
  split; [reflexivity|]. split.
  - apply (proj1 (proj2 (CheckHost_no_record_never_None_nil
                           idna_plain unit unit
                           (fetch_const (EmptyString, Some ErrNoDNSrecord))
                           sampleChecker tt sampleIP "example.com"
                           "user@example.com" "example.com" eq_refl))
                 EmptyString ErrNoDNSrecord); reflexivity.
  - apply (proj2 (proj2 (CheckHost_no_record_never_None_nil
                           idna_plain unit unit
                           (fetch_const (EmptyString, None))
                           sampleChecker tt sampleIP "example.com"
                           "user@example.com" "example.com" eq_refl)));
      reflexivity.
Defined.

Lemma Parse_no_modifiers_witness :
  tokenizer "v=spf1 mx redirect=example.com"
  = Ok ["mx"; "redirect=example.com"]
  /\ In "redirect=example.com" ["mx"; "redirect=example.com"]
  /\ noMechanismKeyword (snd (stripQualifier "redirect=example.com"))
  /\ exists perr,
      Parse idna_plain "v=spf1 mx redirect=example.com"
      = Err (Errorf_v "permerror: %v" perr).
Proof.
  assert (noMechanismKeyword (snd (stripQualifier "redirect=example.com")))
    as K by (repeat split; discriminate).
  split; [reflexivity|]. split; [simpl; auto|]. split; [exact K|].
  apply (proj2 (Parse_no_modifiers idna_plain)
               "v=spf1 mx redirect=example.com"
               ["mx"; "redirect=example.com"] "redirect=example.com");
    [reflexivity|simpl; auto|exact K].
Defined.





Lemma Parse_order_and_fields_witness :
  exists rec,
    Parse idna_plain "v=spf1 ip4:192.0.2.0/24 a:example.com/24/64 mx ~all"
    = Ok rec
    /\ Forall2 (termMechanism idna_plain)
               ["ip4:192.0.2.0/24"; "a:example.com/24/64"; "mx"; "~all"]
               (Mechs rec)
    /\ Forall kindFields (Mechs rec)
    /\ map Kind (Mechs rec) = ["ip4"; "a"; "mx"; "all"].
Proof.
  eexists. split; [reflexivity|].
  split;
    [|split;
      [|reflexivity]];
    apply (Parse_order_and_fields idna_plain
             "v=spf1 ip4:192.0.2.0/24 a:example.com/24/64 mx ~all");
    reflexivity.
Defined.

Lemma parseMX_without_colon_witness :
  ValidateDomain idna_plain "example.com" = Ok "example.com"
  /\ parseMX idna_plain QMinus "mxexample.com"
     = Ok {| Qual := QMinus; Kind := "mx"; Net := None;
             Domain := "example.com"; Mask4 := -1; Mask6 := -1;
             Macro := EmptyString |}
  /\ parseMX idna_plain QMinus "mxexample.com/24"
     = Ok {| Qual := QMinus; Kind := "mx"; Net := None;
             Domain := "example.com"; Mask4 := 24; Mask6 := -1;
             Macro := EmptyString |}.
Proof.
  split; [reflexivity|]. split.
  - apply (proj1 (proj2 (proj2 (proj2
             (parseMX_without_colon idna_plain QMinus "example.com"
                ltac:(discriminate) eq_refl eq_refl)))
             "example.com" eq_refl)).
    reflexivity.
  - apply (proj2 (proj2 (proj2 (proj2
             (parseMX_without_colon idna_plain QMinus "example.com/24"
                ltac:(discriminate) eq_refl eq_refl)))
             "example.com" eq_refl)).
    discriminate.
Defined.

(** ** Counterexamples to the claims as they are stated *)

(** C1 as stated fails: for a domain whose record is [v=spf1 -all],
    [CheckHost] returns Code Neutral, not Fail. *)
Lemma CheckHost_minus_all_not_Fail :
  Code (fst (outcome (CheckHost idna_plain unit unit
                                (fetch_const ("v=spf1 -all", None))
                                sampleChecker tt sampleIP "example.com"
                                "user@example.com")))
  <> Fail.
Proof. discriminate. Qed.

(** C2 as stated fails: for two domains whose records redirect to each
    other, [CheckHost] returns Code Neutral, not PermError, having
    fetched one record. *)
Lemma CheckHost_mutual_redirect_not_PermError :
  Code (fst (outcome (CheckHost idna_plain unit unit fetch_mutual
                                sampleChecker tt sampleIP "a.example.com"
                                "user@a.example.com")))
  <> PermError.
Proof. discriminate. Qed.

(** C4 as stated fails: a first [redirect=] term and an unknown
    [name=value] term are refused with a permerror; neither is
    recorded. *)
Lemma Parse_redirect_refused :
  Parse idna_plain "v=spf1 redirect=example.com"
  = Err (Errorf_v "permerror: %v" (errors_New "no match"))
  /\ Parse idna_plain "v=spf1 -all foo=bar"
     = Err (Errorf_v "permerror: %v" (errors_New "no match")).
Proof. split; reflexivity. Qed.

(** C10 as stated fails: in [mxexample.com/99] the text up to the slash
    passes [ValidateDomain], and the term is refused all the same, for
    its mask. *)
Lemma parseMX_bad_mask_refused :
  ValidateDomain idna_plain "example.com" = Ok "example.com"
  /\ parseMX idna_plain QPlus "mxexample.com/99"
     = Err (errors_New "cidr out of range").
Proof. split; reflexivity. Qed.


(** * Further properties of the package *)

Section SenderProperties.

(** ** Strings *)

Lemma rev_app (s t : string) :
  strings.rev (s ++ t) = (strings.rev t ++ strings.rev s)%string.
Proof.
  induction s as [|c s IH]; simpl.
  - induction (strings.rev t) as [|d r IHr]; simpl; [reflexivity|].
    now f_equal.
  - rewrite IH. clear.
    induction (strings.rev t) as [|d r IHr]; simpl; [reflexivity|].
    now f_equal.
Qed.

Lemma rev_involutive (s : string) : strings.rev (strings.rev s) = s.
Proof.
  induction s as [|c s IH]; simpl; [reflexivity|].
  rewrite rev_app, IH. reflexivity.
Qed.

Lemma ContainsRune_app (s t : string) (c : ascii) :
  strings.ContainsRune (s ++ t) c
  = strings.ContainsRune s c || strings.ContainsRune t c.
Proof.
  induction s as [|d s IH]; simpl; [reflexivity|].
  rewrite IH. apply orb_assoc.
Qed.

Lemma ContainsRune_rev (s : string) (c : ascii) :
  strings.ContainsRune (strings.rev s) c = strings.ContainsRune s c.
Proof.
  induction s as [|d s IH]; simpl; [reflexivity|].
  rewrite ContainsRune_app, IH. simpl. rewrite orb_false_r. apply orb_comm.
Qed.

Lemma TrimLeft_contains (s : string) (cutset : list ascii) (c : ascii) :
  strings.ContainsRune s c = false ->
  strings.ContainsRune (strings.TrimLeft s cutset) c = false.
Proof.
  induction s as [|d s IH]; simpl; [reflexivity|].
  intros H. apply orb_false_iff in H. destruct H as [H1 H2].
  destruct (strings.inCutset cutset d); [now apply IH|].
  simpl. now rewrite H1, H2.
Qed.

Lemma Trim_contains (s : string) (cutset : list ascii) (c : ascii) :
  strings.ContainsRune s c = false ->
  strings.ContainsRune (strings.Trim s cutset) c = false.
Proof.
  intros H. unfold strings.Trim, strings.TrimRight.
  rewrite ContainsRune_rev. apply TrimLeft_contains.
  rewrite ContainsRune_rev. now apply TrimLeft_contains.
Qed.

Lemma IndexByte_absent (s : string) (c : ascii) :
  strings.ContainsRune s c = false -> strings.IndexByte s c = (-1)%Z.
Proof.
  induction s as [|d s IH]; simpl; [reflexivity|].
  destruct (Ascii.eqb d c); simpl; [discriminate|].
  intros H. now rewrite (IH H).
Qed.

Lemma IndexByte_range (s : string) (c : ascii) :
  (-1 <= strings.IndexByte s c < Z.of_nat (String.length s))%Z.
Proof.
  induction s as [|d s IH]; simpl String.length; simpl strings.IndexByte;
    [lia|].
  destruct (Ascii.eqb d c); [lia|].
  destruct (Z.ltb_spec (strings.IndexByte s c) 0); lia.
Qed.

(** The text before the first [c] has no [c] and the length of the
    index. *)
Lemma take_IndexByte (s : string) (c : ascii) :
  (0 <= strings.IndexByte s c)%Z ->
  strings.ContainsRune
    (strings.take (Z.to_nat (strings.IndexByte s c)) s) c = false
  /\ String.length (strings.take (Z.to_nat (strings.IndexByte s c)) s)
     = Z.to_nat (strings.IndexByte s c).
Proof.
  induction s as [|d s IH]; simpl strings.IndexByte; [lia|].
  destruct (Ascii.eqb d c) eqn:E; [simpl; auto|].
  destruct (Z.ltb_spec (strings.IndexByte s c) 0); [lia|].
  intros _. destruct (IH ltac:(lia)) as [IH1 IH2].
  replace (Z.to_nat (strings.IndexByte s c + 1))
    with (S (Z.to_nat (strings.IndexByte s c))) by lia.
  simpl. rewrite E, IH1, IH2. auto.
Qed.

Lemma IndexByte_app (s t : string) (c : ascii) :
  strings.ContainsRune s c = false ->
  strings.IndexByte (s ++ String c t) c = Z.of_nat (String.length s).
Proof.
  induction s as [|d s IH]; simpl.
  - now rewrite Ascii.eqb_refl.
  - destruct (Ascii.eqb d c); simpl; [discriminate|].
    intros H. rewrite (IH H).
    destruct (Z.ltb_spec (Z.of_nat (String.length s)) 0); lia.
Qed.

Lemma take_app (s t : string) :
  strings.take (String.length s) (s ++ t) = s.
Proof. induction s; simpl; [now destruct t|now f_equal]. Qed.

Lemma TrimLeft_brackets (pre s : string) (cutset : list ascii) :
  allBytes (strings.inCutset cutset) pre = true ->
  strings.TrimLeft (pre ++ s) cutset = strings.TrimLeft s cutset.
Proof.
  induction pre as [|c pre IH]; simpl; [reflexivity|].
  intros H. apply andb_true_iff in H. destruct H as [H1 H2].
  rewrite H1. now apply IH.
Qed.

(** Trimming on the right keeps everything up to a byte that is not
    in the cut set. *)
Lemma TrimRight_keeps (s t : string) (c : ascii) (cutset : list ascii) :
  strings.inCutset cutset c = false ->
  exists t', strings.TrimRight (s ++ String c t) cutset
             = (s ++ String c t')%string.
Proof.
  intros HC. unfold strings.TrimRight.
  rewrite rev_app. simpl strings.rev.
  assert (forall u v,
             exists u', strings.TrimLeft (u ++ String c v) cutset
                        = (u' ++ String c v)%string) as K.
  { induction u as [|d u IH]; intros v; simpl.
    - rewrite HC. now exists EmptyString.
    - destruct (strings.inCutset cutset d); [apply IH|].
      now exists (String d u). }
  assert ((strings.rev t ++ String c EmptyString) ++ strings.rev s
          = strings.rev t ++ String c (strings.rev s))%string as A.
  { clear. induction (strings.rev t); simpl; [reflexivity|now f_equal]. }
  rewrite A. destruct (K (strings.rev t) (strings.rev s)) as [u' ->].
  exists (strings.rev u'). rewrite rev_app. simpl.
  rewrite rev_involutive.
  clear. induction s; simpl; [reflexivity|now f_equal].
Qed.

(** ** localPart and getSenderDomain *)

(** What [localPart] makes of an address [pre lp @ rest]. *)
Lemma localPart_split (pre lp rest : string) (c : ascii) (lp' : string) :
  allBytes isBracket pre = true ->
  lp = String c lp' ->
  isBracket c = false ->
  strings.ContainsRune lp "@" = false ->
  localPart (pre ++ lp ++ String "@" rest) = lp.
Proof.
  intros HP -> HC HA. unfold localPart.
  unfold strings.Trim.
  rewrite (TrimLeft_brackets pre _ _ HP).
  change ((String c lp' ++ String "@" rest)%string)
    with (String c (lp' ++ String "@" rest)).
  cbn [strings.TrimLeft]. unfold isBracket in HC. rewrite HC.
  destruct (TrimRight_keeps (String c lp') rest "@" ["<"; ">"]%char eq_refl)
    as [t' E].
  change ((String c lp' ++ String "@" rest)%string)
    with (String c (lp' ++ String "@" rest)) in E.
  rewrite E. rewrite (IndexByte_app _ _ _ HA).
  rewrite Nat2Z.id.
  destruct (Z.ltb_spec 0 (Z.of_nat (String.length (String c lp'))));
    [apply take_app|simpl in *; lia].
Qed.

(** X1: [localPart] never returns the empty string, and what it
    returns has no at sign. *)
Theorem localPart_nonempty_no_at (sender : string) :
  localPart sender <> EmptyString
  /\ strings.ContainsRune (localPart sender) "@" = false.
Proof.
  unfold localPart.
  set (s := strings.Trim sender ["<"; ">"]%char).
  destruct (Z.ltb_spec 0 (strings.IndexByte s "@")) as [H|H];
    [|split; [discriminate|reflexivity]].
  destruct (take_IndexByte s "@" ltac:(lia)) as [H1 H2].
  split; [|exact H1].
  intros E. rewrite E in H2. simpl in H2. lia.
Qed.

Lemma first_byte_no_bracket (c : ascii) (lp' : string) :
  strings.HasPrefix (String c lp') "<" = false ->
  strings.HasPrefix (String c lp') ">" = false ->
  isBracket c = false.
Proof.
  unfold strings.HasPrefix, isBracket. simpl.
  destruct (ascii_dec "<" c) as [<-|N1];
    [destruct lp'; discriminate|].
  destruct (ascii_dec ">" c) as [<-|N2];
    [destruct lp'; discriminate|].
  intros _ _.
  destruct (Ascii.eqb_spec c "<"); [now subst|].
  destruct (Ascii.eqb_spec c ">"); [now subst|]. reflexivity.
Qed.

(** X2: for an address made of any angle brackets, a local part that is
    not empty, has no at sign and starts with no angle bracket, an at
    sign and any rest, [localPart] returns that local part. *)
Theorem localPart_of_address (pre lp rest : string) :
  allBytes isBracket pre = true ->
  lp <> EmptyString ->
  strings.HasPrefix lp "<" = false ->
  strings.HasPrefix lp ">" = false ->
  strings.ContainsRune lp "@" = false ->
  localPart (pre ++ lp ++ "@" ++ rest) = lp.
Proof.
  intros HP HN H1 H2 HA. destruct lp as [|c lp']; [contradiction|].
  apply (localPart_split pre (String c lp') rest c lp'); auto.
  now apply first_byte_no_bracket with lp'.
Qed.

(** X3: a sender without an at sign, as the empty one and the null
    sender [<>], and a sender whose at sign comes first, have the local
    part [postmaster]. *)
Theorem localPart_postmaster :
  (forall sender,
      strings.ContainsRune sender "@" = false ->
      localPart sender = "postmaster")
  /\ (forall pre rest,
         allBytes isBracket pre = true ->
         localPart (pre ++ "@" ++ rest) = "postmaster").
Proof.
  split.
  - intros sender H. unfold localPart.
    rewrite (IndexByte_absent _ _ (Trim_contains _ _ _ H)). reflexivity.
  - intros pre rest HP. unfold localPart, strings.Trim.
    rewrite (TrimLeft_brackets pre _ _ HP).
    change ("@" ++ rest)%string with (String "@" rest).
    cbn [strings.TrimLeft]. simpl strings.inCutset. cbv iota.
    destruct (TrimRight_keeps EmptyString rest "@" ["<"; ">"]%char eq_refl)
      as [t' E].
    simpl append in E. rewrite E. reflexivity.
Qed.

Lemma SplitN_two (s : string) (sep : ascii) :
  strings.SplitN s sep 2
  = let '(before, after, found) := strings.Cut s sep in
    if found then [before; after] else [s].
Proof.
  unfold strings.SplitN.
  destruct (strings.Cut s sep) as [[b a] f]. now destruct f.
Qed.

(** X4: [getSenderDomain] splits at the first at sign: an address
    without one has no domain, and an address [lp @ dom] whose [lp] has
    no at sign has the domain [dom], at signs of [dom] included. *)
Theorem getSenderDomain_first_at :
  (forall sender,
      strings.ContainsRune sender "@" = false ->
      getSenderDomain sender = (EmptyString, false))
  /\ (forall lp dom,
         strings.ContainsRune lp "@" = false ->
         getSenderDomain (lp ++ "@" ++ dom) = (dom, true)).
Proof.
  unfold getSenderDomain. split.
  - intros sender H. cbv zeta. rewrite SplitN_two.
    rewrite (Cut_no_sep _ _ H). reflexivity.
  - intros lp dom H. cbv zeta. rewrite SplitN_two.
    change ("@" ++ dom)%string with (String "@" dom).
    rewrite (Cut_app_sep _ _ _ H). reflexivity.
Qed.

(** X5: [localPart] and [getSenderDomain] take an address without
    angle brackets apart and lose nothing: for a local part that is not
    empty and has neither an at sign nor a leading angle bracket, what
    the two return, joined by an at sign, is the address. *)
Theorem sender_parts_join (lp dom : string) :
  lp <> EmptyString ->
  strings.HasPrefix lp "<" = false ->
  strings.HasPrefix lp ">" = false ->
  strings.ContainsRune lp "@" = false ->
  (localPart (lp ++ "@" ++ dom)
   ++ "@" ++ fst (getSenderDomain (lp ++ "@" ++ dom)))%string
  = (lp ++ "@" ++ dom)%string.
Proof.
  intros HN H1 H2 HA.
  assert (localPart (lp ++ "@" ++ dom) = lp) as L.
  { destruct lp as [|c lp']; [contradiction|].
    exact (localPart_split EmptyString (String c lp') dom c lp'
             eq_refl eq_refl (first_byte_no_bracket c lp' H1 H2) HA). }
  assert (getSenderDomain (lp ++ "@" ++ dom) = (dom, true)) as G.
  { unfold getSenderDomain. cbv zeta. rewrite SplitN_two.
    change ("@" ++ dom)%string with (String "@" dom).
    rewrite (Cut_app_sep _ _ _ HA). reflexivity. }
  rewrite L, G. reflexivity.
Qed.

End SenderProperties.

Section CheckerProperties.

Variable idna : string -> option string.
Variable context_Context : Type.
Variable TXTResolver : Type.
Variable getSPFRecord : context_Context -> string -> TXTResolver ->
                        string * option error.

Local Abbreviation check :=
  (CheckHost idna context_Context TXTResolver getSPFRecord).

(** ** Accepted domains *)

Lemma lowerByte_idempotent (c : ascii) :
  strings.lowerByte (strings.lowerByte c) = strings.lowerByte c.
Proof. destruct c as [[] [] [] [] [] [] [] []]; reflexivity. Qed.

Lemma ToLower_idempotent (s : string) :
  strings.ToLower (strings.ToLower s) = strings.ToLower s.
Proof.
  induction s as [|c s IH]; simpl; [reflexivity|].
  now rewrite lowerByte_idempotent, IH.
Qed.

Lemma checkLabels_None (labels : list string) :
  checkLabels labels = None ->
  Forall (fun lbl => 1 <= String.length lbl <= 63) labels.
Proof.
  induction labels as [|lbl rest IH]; simpl; [constructor|].
  destruct (Nat.eqb_spec (String.length lbl) 0) as [|N0]; [discriminate|].
  destruct (Nat.ltb_spec 63 (String.length lbl)) as [|N63]; [discriminate|].
  intros HR. constructor; [lia|auto].
Qed.

(** X6: a domain that [ValidateDomain] accepts is the lower-cased
    answer of the conversion to A-labels for the input without
    surrounding white space and without one trailing dot; it has at most
    255 bytes, at least two labels, each of 1 to 63 bytes, and no
    upper-case ASCII letter. *)
Theorem ValidateDomain_accepted_shape (raw d : string) :
  ValidateDomain idna raw = Ok d ->
  (exists a, idna (strings.TrimSuffix (strings.TrimSpace raw) ".") = Some a
             /\ d = strings.ToLower a)
  /\ String.length d <= 255
  /\ 2 <= List.length (strings.Split d ".")
  /\ Forall (fun lbl => 1 <= String.length lbl <= 63) (strings.Split d ".")
  /\ strings.ToLower d = d.
Proof.
  unfold ValidateDomain.
  destruct (idna _) as [a|]; [|discriminate].
  destruct (Nat.ltb_spec 255 (String.length (strings.ToLower a)));
    [discriminate|].
  destruct (Nat.ltb_spec (List.length (strings.Split (strings.ToLower a) "."))
                         2); [discriminate|].
  destruct (checkLabels _) eqn:L; [discriminate|].
  intros [= <-]. apply checkLabels_None in L.
  repeat split; auto using ToLower_idempotent. now exists a.
Qed.

(** ** The outcomes of check_host *)

Lemma errIs_Some (err : option error) (target : error) :
  errIs err target = true -> exists e, err = Some e.
Proof. destruct err; [now eexists|discriminate]. Qed.

(** X7: whatever the inputs and the resolver, the Code [CheckHost]
    returns is the empty zero value, None, Neutral, TempError or
    PermError: never Pass, Fail or SoftFail. *)
Theorem CheckHost_never_authorizes (c : Checker TXTResolver)
        (ctx : context_Context) (ip : net.IP) (domain sender : string)
        (log : list string) :
  In (Code (fst (fst (check c ctx ip domain sender log)))) checkHostCodes
  /\ Code (fst (fst (check c ctx ip domain sender log))) <> Pass
  /\ Code (fst (fst (check c ctx ip domain sender log))) <> Fail
  /\ Code (fst (fst (check c ctx ip domain sender log))) <> SoftFail.
Proof.
  assert (In (Code (fst (fst (check c ctx ip domain sender log))))
             checkHostCodes) as H.
  { unfold CheckHost, bind, fetchSPFRecord, checkHostCodes.
    destruct (ValidateDomain idna domain) as [v|e]; [|simpl; auto].
    destruct (getSPFRecord ctx v (Resolver _ c)) as [spf err].
    repeat match goal with
           | |- context [if ?b then _ else _] => destruct b
           | |- context [match ?o with Some _ => _ | None => _ end] =>
               destruct o
           end; simpl; auto 10. }
  split; [exact H|].
  unfold checkHostCodes in H. simpl in H.
  repeat split; intros E; rewrite E in H;
    repeat (destruct H as [H|H]; [discriminate H|]); exact H.
Qed.

(** X8: a failed record fetch that is no cancellation and no missing
    record gives TempError when it is [ErrTempfail], and else PermError
    when it is [ErrPermfail] or [ErrMultipleSPF]; the Cause is the fetch
    error and the transport error is nil. *)
Theorem CheckHost_fetch_failure (c : Checker TXTResolver)
        (ctx : context_Context) (ip : net.IP)
        (domain sender v spf : string) (e : error) :
  ValidateDomain idna domain = Ok v ->
  getSPFRecord ctx v (Resolver _ c) = (spf, Some e) ->
  errors_Is e context_Canceled = false ->
  errors_Is e context_DeadlineExceeded = false ->
  errors_Is e ErrNoDNSrecord = false ->
  (errors_Is e ErrTempfail = true ->
   outcome (check c ctx ip domain sender)
   = ({| Code := TempError; Cause := Some e |}, None))
  /\ (errors_Is e ErrTempfail = false ->
      errors_Is e ErrPermfail || errors_Is e ErrMultipleSPF = true ->
      outcome (check c ctx ip domain sender)
      = ({| Code := PermError; Cause := Some e |}, None)).
Proof.
  intros Hv Hf Hc Hd Hn.
  unfold outcome, CheckHost, bind, fetchSPFRecord.
  rewrite Hv, Hf. simpl. rewrite Hc, Hd, Hn. simpl.
  split; [intros ->; reflexivity|intros -> ->; reflexivity].
Qed.

(** X9: a fetch error that is a cancellation or a passed deadline,
    whatever else it is, and a fetch error that is none of the six
    sentinels of the switch, are passed on as the transport error, with
    the zero [CheckHostResult]. *)
Theorem CheckHost_fault (c : Checker TXTResolver)
        (ctx : context_Context) (ip : net.IP)
        (domain sender v spf : string) (e : error) :
  ValidateDomain idna domain = Ok v ->
  getSPFRecord ctx v (Resolver _ c) = (spf, Some e) ->
  errors_Is e context_Canceled || errors_Is e context_DeadlineExceeded
  = true
  \/ (errors_Is e ErrNoDNSrecord = false
      /\ errors_Is e ErrTempfail = false
      /\ errors_Is e ErrPermfail = false
      /\ errors_Is e ErrMultipleSPF = false) ->
  outcome (check c ctx ip domain sender) = (zeroCheckHostResult, Some e).
Proof.
  intros Hv Hf H.
  unfold outcome, CheckHost, bind, fetchSPFRecord.
  rewrite Hv, Hf. simpl.
  destruct (errors_Is e context_Canceled
            || errors_Is e context_DeadlineExceeded) eqn:C;
    [reflexivity|].
  destruct H as [H|(H1 & H2 & H3 & H4)]; [discriminate|].
  rewrite H1, H2, H3, H4. reflexivity.
Qed.

(** X10: when the fetch returns the empty text and no error, for a
    valid domain, [CheckHost] returns the zero [CheckHostResult] and a
    nil error: neither a result code nor a fault. *)
Theorem CheckHost_empty_record (c : Checker TXTResolver)
        (ctx : context_Context) (ip : net.IP)
        (domain sender v : string) :
  ValidateDomain idna domain = Ok v ->
  getSPFRecord ctx v (Resolver _ c) = (EmptyString, None) ->
  outcome (check c ctx ip domain sender) = (zeroCheckHostResult, None)
  /\ Code (fst (outcome (check c ctx ip domain sender))) = EmptyString.
Proof.
  intros Hv Hf. unfold outcome, CheckHost, bind, fetchSPFRecord.
  rewrite Hv, Hf. simpl. auto.
Qed.

(** X11: in every return of [CheckHost] the Cause is set exactly when
    the Code is not empty; and a transport error that is not nil is the
    error of the record fetch for the validated domain, with a Code that
    is empty or None. *)
Theorem CheckHost_cause_and_error (c : Checker TXTResolver)
        (ctx : context_Context) (ip : net.IP) (domain sender : string) :
  let res := fst (outcome (check c ctx ip domain sender)) in
  let err := snd (outcome (check c ctx ip domain sender)) in
  (Code res = EmptyString <-> Cause res = None)
  /\ (err <> None ->
      (Code res = EmptyString \/ Code res = None_)
      /\ exists v spf,
          ValidateDomain idna domain = Ok v
          /\ getSPFRecord ctx v (Resolver _ c) = (spf, err)).
Proof.
  unfold outcome, CheckHost, bind, fetchSPFRecord.
  destruct (ValidateDomain idna domain) as [v|e];
    [|simpl; split; [split; discriminate|intros H; now contradiction H]].
  destruct (getSPFRecord ctx v (Resolver _ c)) as [spf err] eqn:F.
  assert (exists v0 spf0, Ok v = Ok v0
                          /\ getSPFRecord ctx v0 (Resolver _ c) = (spf0, err))
    as W by (exists v, spf; auto).
  destruct err as [e|]; simpl.
  - repeat match goal with
           | |- context [if ?b then _ else _] => destruct b; simpl
           end;
      (split; [split; intros; try discriminate; auto|]);
      intros N; try (now contradiction N); auto.
  - destruct (String.eqb spf EmptyString); simpl;
      (split; [split; intros; try discriminate; auto|]);
      intros N; now contradiction N.
Qed.

(** For a domain that [ValidateDomain] accepts, [CheckHost]
    fetches exactly one record, under the validated name and not under
    the name it was given. *)
Lemma CheckHost_fetches_validated (c : Checker TXTResolver)
        (ctx : context_Context) (ip : net.IP)
        (domain sender v : string) (log : list string) :
  ValidateDomain idna domain = Ok v ->
  snd (check c ctx ip domain sender log) = log ++ [v].
Proof.
  intros Hv. unfold CheckHost, bind, fetchSPFRecord. rewrite Hv.
  destruct (getSPFRecord ctx v (Resolver _ c)) as [spf err].
  repeat match goal with
         | |- context [if ?b then _ else _] => destruct b
         | |- context [match ?o with Some _ => _ | None => _ end] =>
             destruct o
         end; reflexivity.
Qed.

(** X30: the connecting IP, the sender and the limits of the checker
    have no influence on [CheckHost]: two calls with the same resolver,
    context and domain return the same. *)
Theorem CheckHost_ignores (c c' : Checker TXTResolver)
        (ctx : context_Context) (ip ip' : net.IP)
        (domain sender sender' : string) (log : list string) :
  Resolver _ c = Resolver _ c' ->
  check c ctx ip domain sender log = check c' ctx ip' domain sender' log.
Proof.
  intros R. unfold CheckHost, bind, fetchSPFRecord, evaluate. rewrite R.
  reflexivity.
Qed.

End CheckerProperties.

(** Splits the result of a parser into the paths that lead to it. *)
Ltac mech_paths H :=
  cbv zeta in H;
  repeat (match type of H with
          | context [match ?x with _ => _ end] => destruct x eqn:?
          end);
  try discriminate H.

(** ** Qualifiers *)

(** [stripQualifier] undoes the writing of a qualifier before a
    term, and a token is what it returns with the rune of the qualifier
    put back, or, for the implied plus, what it returns as it is. *)
Lemma stripQualifier_round_trip :
  (forall q rest,
      stripQualifier (String (qualifierRune q) rest) = (q, rest))
  /\ (forall tok,
         tok = String (qualifierRune (fst (stripQualifier tok)))
                      (snd (stripQualifier tok))
         \/ (fst (stripQualifier tok) = QPlus
             /\ snd (stripQualifier tok) = tok)).
Proof.
  split.
  - intros [] rest; reflexivity.
  - intros [|c rest]; [right; auto|]. unfold stripQualifier.
    destruct (Ascii.eqb_spec c "+") as [->|]; [left; reflexivity|].
    destruct (Ascii.eqb_spec c "-") as [->|]; [left; reflexivity|].
    destruct (Ascii.eqb_spec c "~") as [->|]; [left; reflexivity|].
    destruct (Ascii.eqb_spec c "?") as [->|]; [left; reflexivity|].
    right. auto.
Qed.

(** ** Masks *)

Lemma Atoi_empty : strconv.Atoi EmptyString = None.
Proof. reflexivity. Qed.

Lemma toInt_ok (s : string) (max n : Z) :
  toInt s max = Ok n -> (0 <= n <= max)%Z /\ s <> EmptyString.
Proof.
  unfold toInt. destruct (strconv.Atoi s) as [v|] eqn:A; [|discriminate].
  destruct (Z.ltb_spec v 0); simpl; [discriminate|].
  destruct (Z.ltb_spec max v); [discriminate|].
  intros [= <-]. split; [lia|]. intros ->. discriminate A.
Qed.

Lemma Split_no_sep (s : string) (sep : ascii) :
  strings.ContainsRune s sep = false -> strings.Split s sep = [s].
Proof.
  induction s as [|d s IH]; simpl; [reflexivity|].
  destruct (Ascii.eqb d sep); simpl; [discriminate|].
  intros H. now rewrite (IH H).
Qed.

Lemma Split_sep (s : string) (sep : ascii) :
  strings.ContainsRune s sep = true ->
  2 <= List.length (strings.Split s sep).
Proof.
  induction s as [|d s IH]; simpl; [discriminate|].
  destruct (Ascii.eqb d sep); simpl.
  - intros _. destruct s; simpl; [lia|].
    destruct (Ascii.eqb a sep); simpl; [lia|].
    destruct (strings.Split s sep); simpl; lia.
  - intros H. specialize (IH H).
    destruct (strings.Split s sep); simpl in *; lia.
Qed.

(** The masks [parseMasks] returns are in range. *)
Lemma parseMasks_range (maskstr : string) (m : Z * Z) :
  parseMasks maskstr = Ok m ->
  (0 <= fst m <= 32)%Z /\ maskInRange (snd m) 128.
Proof.
  unfold parseMasks, maskInRange. intros H. mech_paths H;
    injection H as <-;
    repeat match goal with
           | T : toInt _ _ = Ok _ |- _ => apply toInt_ok in T
           end; simpl; intuition.
Qed.

(** X14: the masks [parseMasks] accepts: the text is one or two
    segments, none empty; the first mask is within 0 to 32, the second
    within 0 to 128, and the second is unset, -1, exactly when the text
    has no slash. *)
Theorem parseMasks_accepted (maskstr : string) (mask4 mask6 : Z) :
  parseMasks maskstr = Ok (mask4, mask6) ->
  (0 <= mask4 <= 32)%Z
  /\ maskInRange mask6 128
  /\ (mask6 = (-1)%Z <-> strings.ContainsRune maskstr "/" = false)
  /\ List.length (strings.Split maskstr "/") <= 2
  /\ Forall (fun seg => seg <> EmptyString) (strings.Split maskstr "/").
Proof.
  intros H. destruct (parseMasks_range _ _ H) as [R4 R6]. simpl in R4, R6.
  split; [exact R4|]. split; [exact R6|].
  unfold parseMasks in H.
  destruct (strings.ContainsRune maskstr "/") eqn:C.
  - pose proof (Split_sep _ _ C) as L.
    destruct (strings.Split maskstr "/") as [|p0 [|p1 [|p2 ps]]];
      simpl in L; try lia; try discriminate H.
    destruct (toInt p0 32) as [n0|] eqn:T0; [|discriminate].
    destruct (toInt p1 128) as [n1|] eqn:T1; [|discriminate].
    injection H as <- <-.
    apply toInt_ok in T0, T1.
    split; [split; [lia|discriminate]|].
    split; [simpl; lia|]. repeat constructor; tauto.
  - rewrite (Split_no_sep _ _ C) in *.
    destruct (toInt maskstr 32) as [n0|] eqn:T0; [|discriminate].
    injection H as <- <-. apply toInt_ok in T0.
    split; [tauto|]. split; [simpl; lia|]. repeat constructor; tauto.
Qed.

Lemma Atoi_plus (c : ascii) (r : string) :
  isDigit c = true ->
  strconv.Atoi (String "+" (String c r)) = strconv.Atoi (String c r).
Proof.
  intros D. unfold strconv.Atoi.
  destruct c as [[] [] [] [] [] [] [] []]; try discriminate D; reflexivity.
Qed.

Lemma Split_head (c : ascii) (r : string) (sep : ascii) :
  Ascii.eqb c sep = false ->
  exists x xs, strings.Split (String c r) sep = String c x :: xs
               /\ strings.Split r sep = x :: xs.
Proof.
  intros N. simpl. rewrite N.
  assert (strings.Split r sep <> []) as NE.
  { destruct r; simpl; [discriminate|].
    destruct (Ascii.eqb a sep); [discriminate|].
    destruct (strings.Split r sep); discriminate. }
  destruct (strings.Split r sep) as [|x xs]; [contradiction|].
  now exists x, xs.
Qed.

(** X15: [parseMasks] accepts a plus sign before the first mask: a
    text that starts with a digit gives the same masks with a plus sign
    written before it. *)
Theorem parseMasks_plus_sign (c : ascii) (r : string) :
  isDigit c = true ->
  parseMasks (String "+" (String c r)) = parseMasks (String c r).
Proof.
  intros D.
  assert (Ascii.eqb c "/" = false) as N
      by (destruct c as [[] [] [] [] [] [] [] []];
          try discriminate D; reflexivity).
  destruct (Split_head c r "/" N) as (x & xs & E1 & E2).
  unfold parseMasks.
  change (strings.Split (String "+" (String c r)) "/")
    with (match strings.Split (String c r) "/" with
          | [] => [String "+" EmptyString]
          | y :: ys => String "+" y :: ys
          end).
  rewrite E1. unfold toInt. rewrite (Atoi_plus c x D). reflexivity.
Qed.

(** ** a and mx terms *)

Section TermProperties.

Variable idna : string -> option string.

(** X16: a mechanism that [parseA] or [parseMX] accepts has the
    qualifier given, the kind a or mx, masks that are unset or within
    0 to 32 and 0 to 128, no second mask without a first, and a domain
    that is empty, for the current domain, or accepted by
    [ValidateDomain]. *)
Theorem parseA_parseMX_accepted (q : Qualifier) (rest : string)
        (m : Mechanism) :
  parseA idna q rest = Ok m \/ parseMX idna q rest = Ok m ->
  Qual m = q
  /\ (Kind m = "a" \/ Kind m = "mx")
  /\ maskInRange (Mask4 m) 32
  /\ maskInRange (Mask6 m) 128
  /\ (Mask4 m = (-1)%Z -> Mask6 m = (-1)%Z)
  /\ (Domain m = EmptyString
      \/ exists v, ValidateDomain idna (Domain m) = Ok v).
Proof.
  unfold maskInRange.
  intros [H|H]; [unfold parseA in H|unfold parseMX in H];
    mech_paths H; injection H as <-; simpl;
    repeat match goal with
           | T : parseMasks _ = Ok _ |- _ =>
               apply parseMasks_range in T; unfold maskInRange in T;
               destruct T
           | T : (if _ then _ else _) = Ok _ |- _ =>
               mech_paths T; injection T as <-
           end;
    repeat split; auto; try lia; try (right; lia);
      try (now left); try (right; eexists; eassumption).
Qed.

(** X17: unlike [parseMX], [parseA] keeps its syntax check: a term a
    followed by a text that is not empty and starts with neither a
    colon nor a slash is an invalid a mechanism, and, [all] apart, every
    parser refuses it. *)
Theorem parseA_invalid_syntax (q : Qualifier) (spec : string) :
  spec <> EmptyString ->
  strings.HasPrefix spec "/" = false ->
  strings.HasPrefix spec ":" = false ->
  parseA idna q ("a" ++ spec)
  = Err (Errorf_q "invalid a-mechanism syntax %q" ("a" ++ spec))
  /\ (spec <> "ll" ->
      tryParsers (mechParsers idna) q ("a" ++ spec) (None, None)
      = (None, Some (errors_New "no match"))).
Proof.
  intros HN HS HC.
  assert (parseA idna q ("a" ++ spec)
          = Err (Errorf_q "invalid a-mechanism syntax %q" ("a" ++ spec)))
    as PA.
  { unfold parseA. simpl strings.drop.
    change (strings.HasPrefix ("a" ++ spec) "a")
      with (strings.HasPrefix spec EmptyString).
    replace (strings.HasPrefix spec EmptyString) with true
      by (now destruct spec).
    cbv zeta. simpl negb. cbv iota.
    destruct (String.eqb_spec spec EmptyString); [contradiction|].
    now rewrite HS, HC. }
  split; [exact PA|]. intros HL.
  unfold mechParsers, tryParsers. rewrite PA.
  unfold parseAll.
  destruct (String.eqb_spec ("a" ++ spec) "all") as [E|_].
  - injection E as E. contradiction.
  - reflexivity.
Qed.

(** X18: an empty domain after the colon is accepted and stands for
    the current domain: [a:] is the bare [a], and with masks that are
    not empty [a:/masks] is [a/masks]; the same holds for mx. *)
Theorem empty_domain_after_colon (q : Qualifier) (maskstr : string) :
  parseA idna q "a:" = parseA idna q "a"
  /\ parseMX idna q "mx:" = parseMX idna q "mx"
  /\ (maskstr <> EmptyString ->
      parseA idna q ("a:/" ++ maskstr) = parseA idna q ("a/" ++ maskstr)
      /\ parseMX idna q ("mx:/" ++ maskstr)
         = parseMX idna q ("mx/" ++ maskstr)).
Proof.
  split; [reflexivity|]. split; [reflexivity|].
  intros HN. split.
  - unfold parseA.
    change ("a:/" ++ maskstr)%string with ("a" ++ (":/" ++ maskstr))%string.
    change ("a/" ++ maskstr)%string with ("a" ++ ("/" ++ maskstr))%string.
    rewrite !HasPrefix_app.
    change (strings.drop 1 ("a" ++ (":/" ++ maskstr)))
      with (":" ++ ("/" ++ maskstr))%string.
    change (strings.drop 1 ("a" ++ ("/" ++ maskstr)))
      with ("/" ++ maskstr)%string.
    cbv zeta. rewrite !HasPrefix_app, !TrimPrefix_app.
    change ("/" ++ maskstr)%string with (String "/" maskstr).
    simpl. destruct (String.eqb_spec maskstr EmptyString); [contradiction|].
    reflexivity.
  - unfold parseMX.
    change ("mx:/" ++ maskstr)%string
      with ("mx" ++ (":/" ++ maskstr))%string.
    change ("mx/" ++ maskstr)%string with ("mx" ++ ("/" ++ maskstr))%string.
    rewrite !HasPrefix_app.
    change (strings.drop 2 ("mx" ++ (":/" ++ maskstr)))
      with (":" ++ ("/" ++ maskstr))%string.
    change (strings.drop 2 ("mx" ++ ("/" ++ maskstr)))
      with ("/" ++ maskstr)%string.
    cbv zeta. rewrite !HasPrefix_app, !TrimPrefix_app.
    change ("/" ++ maskstr)%string with (String "/" maskstr).
    simpl. destruct (String.eqb_spec maskstr EmptyString); [contradiction|].
    reflexivity.
Qed.

(** X13: for [a:] and [mx:] followed by a domain without a slash,
    [ValidateDomain] decides: when it accepts the domain the term is
    accepted, with default masks and with the domain as it is written,
    not as [ValidateDomain] returns it; when it rejects it the term is a
    bad domain. *)
Theorem explicit_domain_decides (q : Qualifier) (d : string) :
  d <> EmptyString ->
  strings.ContainsRune d "/" = false ->
  (forall v, ValidateDomain idna d = Ok v ->
             parseA idna q ("a:" ++ d)
             = Ok {| Qual := q; Kind := "a"; Net := None; Domain := d;
                     Mask4 := -1; Mask6 := -1; Macro := EmptyString |}
             /\ parseMX idna q ("mx:" ++ d)
                = Ok {| Qual := q; Kind := "mx"; Net := None; Domain := d;
                        Mask4 := -1; Mask6 := -1; Macro := EmptyString |})
  /\ (forall e, ValidateDomain idna d = Err e ->
                parseA idna q ("a:" ++ d)
                = Err (Errorf_q "bad a record domain %q" d)
                /\ parseMX idna q ("mx:" ++ d)
                   = Err (Errorf_q "bad domain %q" d)).
Proof.
  intros HN HC.
  assert (parseA idna q ("a:" ++ d)
                    = match ValidateDomain idna d with
                      | Ok _ => Ok {| Qual := q; Kind := "a"; Net := None;
                                      Domain := d; Mask4 := -1; Mask6 := -1;
                                      Macro := EmptyString |}
                      | Err _ => Err (Errorf_q "bad a record domain %q" d)
                      end
                    /\ parseMX idna q ("mx:" ++ d)
                       = match ValidateDomain idna d with
                         | Ok _ => Ok {| Qual := q; Kind := "mx"; Net := None;
                                         Domain := d; Mask4 := -1;
                                         Mask6 := -1; Macro := EmptyString |}
                         | Err _ => Err (Errorf_q "bad domain %q" d)
                         end) as U.
  { unfold parseA, parseMX.
    change ("a:" ++ d)%string with ("a" ++ (":" ++ d))%string.
    change ("mx:" ++ d)%string with ("mx" ++ (":" ++ d))%string.
    rewrite !HasPrefix_app.
    change (strings.drop 1 ("a" ++ (":" ++ d))) with (":" ++ d)%string.
    change (strings.drop 2 ("mx" ++ (":" ++ d))) with (":" ++ d)%string.
    cbv zeta. rewrite !HasPrefix_app, !TrimPrefix_app.
    change (String.eqb (":" ++ d) EmptyString) with false.
    change (strings.HasPrefix (":" ++ d) "/") with false.
    change (strings.HasPrefix (":" ++ d) EmptyString) with true.
    rewrite (Cut_no_sep _ _ HC). cbn [negb].
    destruct (String.eqb_spec d EmptyString); [contradiction|].
    cbn [negb]. split; destruct (ValidateDomain idna d); reflexivity. }
  destruct U as [UA UM]. rewrite UA, UM.
  split; [intros v ->|intros e ->]; auto.
Qed.

Lemma parser_qualifier
      (pf : Qualifier -> string -> result Mechanism) :
  In pf (mechParsers idna) ->
  forall q q' rest,
    match pf q rest with
    | Ok m => pf q' rest = Ok (withQual q' m)
    | Err e => pf q' rest = Err e
    end.
Proof.
  unfold mechParsers. simpl.
  intros [<-|[<-|[<-|[<-|[<-|[]]]]]] q q' rest;
    unfold parseAll, parseIP4, parseIP6, parseA, parseMX; cbv zeta;
    repeat match goal with
           | |- context [match ?x with _ => _ end] =>
               lazymatch x with
               | context [q] => fail
               | context [q'] => fail
               | _ => destruct x
               end
           end; reflexivity.
Qed.

(** X12: the qualifier of a term has no part in its parsing: under
    another qualifier the parsers accept the same term with the same
    mechanism, the qualifier apart, or refuse it with the same error. *)
Theorem qualifier_independent (q q' : Qualifier) (rest : string) :
  (forall m,
      tryParsers (mechParsers idna) q rest (None, None) = (Some m, None) ->
      tryParsers (mechParsers idna) q' rest (None, None)
      = (Some (withQual q' m), None))
  /\ (forall e,
         tryParsers (mechParsers idna) q rest (None, None)
         = (None, Some e) ->
         tryParsers (mechParsers idna) q' rest (None, None)
         = (None, Some e)).
Proof.
  assert (forall pfs st st',
             (forall pf, In pf pfs -> In pf (mechParsers idna)) ->
             match st with
             | (Some m, None) => st' = (Some (withQual q' m), None)
             | _ => st' = st
             end ->
             match tryParsers pfs q rest st with
             | (Some m, None) =>
                 tryParsers pfs q' rest st' = (Some (withQual q' m), None)
             | other => tryParsers pfs q' rest st' = other
             end) as G.
  { induction pfs as [|pf more IH]; intros st st' HI HS; simpl.
    - destruct st as [[m|] [e|]]; exact HS.
    - pose proof (parser_qualifier pf (HI pf (or_introl eq_refl)) q q' rest)
        as P.
      destruct (pf q rest) as [m|e]; rewrite P; [reflexivity|].
      apply IH; [intros pf' H'; apply HI; now right|reflexivity]. }
  pose proof (G (mechParsers idna) (None, None) (None, None)
                (fun _ H => H) eq_refl) as K.
  split.
  - intros m E. now rewrite E in K.
  - intros e E. now rewrite E in K.
Qed.

End TermProperties.

(** ** ip4 and ip6 terms *)

(** X19: a term without a prefix length is the term with the default
    length written out, /32 for ip4 and /128 for ip6. *)
Theorem default_prefix_length (q : Qualifier) (addr : string) :
  strings.ContainsRune addr "/" = false ->
  parseIP4 q ("ip4:" ++ addr) = parseIP4 q ("ip4:" ++ addr ++ "/32")
  /\ parseIP6 q ("ip6:" ++ addr) = parseIP6 q ("ip6:" ++ addr ++ "/128").
Proof.
  intros HC. unfold parseIP4, parseIP6.
  rewrite !TrimPrefix_app, !HasPrefix_app. rewrite HC.
  change ("/32") with (String "/" "32").
  change ("/128") with (String "/" "128").
  rewrite !ContainsRune_app_sep. split; reflexivity.
Qed.

Lemma length_maskBytes (l : nat) :
  forall n, List.length (net.maskBytes l n) = l.
Proof.
  induction l as [|l IH]; intros n; simpl; [reflexivity|].
  destruct (8 <=? n)%Z; simpl; now rewrite IH.
Qed.

Lemma length_andBytes (ip : list Z) :
  forall mask, List.length ip = List.length mask ->
               List.length (net.andBytes ip mask) = List.length mask.
Proof.
  induction ip as [|a ip IH]; intros [|m mask]; simpl; intros H;
    try discriminate; [reflexivity|].
  f_equal. apply IH. lia.
Qed.

(** Masking twice is masking once. *)
Lemma andBytes_idempotent (ip : list Z) :
  forall mask, net.andBytes (net.andBytes ip mask) mask
               = net.andBytes ip mask.
Proof.
  induction ip as [|a ip IH]; intros [|m mask]; simpl; try reflexivity.
  rewrite IH. f_equal.
  rewrite <- Z.land_assoc, Z.land_diag. reflexivity.
Qed.

(** The loop over the groups never writes more than sixteen bytes. *)
Lemma v6groups_length (n : nat) :
  forall s ip ell s' ip' ell',
    List.length ip + 2 * n <= 16 ->
    net.v6groups n s ip ell = Some (s', ip', ell') ->
    List.length ip' <= 16.
Proof.
  induction n as [|n IH]; intros s ip ell s' ip' ell' HL; simpl.
  - intros [= <- <- <-]. lia.
  - destruct (net.hexGroup s 0 0) as [[[off acc] rest]|]; [|discriminate].
    destruct (off =? 0); [discriminate|].
    destruct (strings.HasPrefix rest ".").
    + destruct (match ell with
                | Some _ => false
                | None => negb (List.length ip =? 12)
                end); [discriminate|].
      destruct (Nat.ltb_spec 16 (List.length ip + 4)); [discriminate|].
      destruct (net.parseIPv4 s) as [ip4|] eqn:P4; [|discriminate].
      intros [= <- <- <-].
      apply parseIPv4Fields_length in P4; [|simpl; lia].
      rewrite length_app. lia.
    + assert (List.length (ip ++ [Z.shiftr acc 8; Z.land acc 255])
              = List.length ip + 2) as L
          by (rewrite length_app; reflexivity).
      destruct rest as [|c s1]; [intros [= <- <- <-]; lia|].
      destruct (negb (Ascii.eqb c ":")); [discriminate|].
      destruct s1 as [|c1 s2]; [discriminate|].
      destruct (Ascii.eqb c1 ":").
      * destruct ell; [discriminate|].
        destruct (isEmpty s2); [intros [= <- <- <-]; lia|].
        apply IH. lia.
      * apply IH. lia.
Qed.

Lemma parseIPv6_length (s : string) (b : list Z) (zone : string) :
  net.parseIPv6 s = Some (net.Addr6 b zone) -> List.length b = 16.
Proof.
  unfold net.parseIPv6.
  destruct (net.splitZone s) as [[s0 z]|]; [|discriminate].
  destruct (strings.HasPrefix s0 "::" && isEmpty _);
    [intros [= <- _]; reflexivity|].
  destruct (net.v6groups 8 _ [] _) as [[[rest ip] ell]|] eqn:G;
    [|discriminate].
  apply v6groups_length in G; [|simpl; lia].
  destruct (negb (isEmpty rest)); [discriminate|].
  destruct (Nat.ltb_spec (List.length ip) 16).
  - destruct ell as [e|]; [|discriminate].
    remember (16 - List.length ip) as k eqn:K. intros [= <- _].
    rewrite !length_app, repeat_length.
    pose proof (firstn_skipn e ip) as FS.
    apply (f_equal (@List.length Z)) in FS. rewrite length_app in FS. lia.
  - destruct ell; [discriminate|]. intros [= <- _]. lia.
Qed.

Lemma ParseAddr_length (s : string) (a : net.Addr) :
  net.ParseAddr s = Some a ->
  match a with
  | net.Addr4 b => List.length b = 4
  | net.Addr6 b _ => List.length b = 16
  end.
Proof.
  unfold net.ParseAddr.
  destruct (net.addrKind s) as [[[] [] [] [] [] [] [] []]|];
    try discriminate.
  - destruct (net.parseIPv4 s) as [b|] eqn:P; [|discriminate].
    intros [= <-]. apply parseIPv4Fields_length in P; [exact P|simpl; lia].
  - destruct a as [b|b z]; intros P.
    + unfold net.parseIPv6 in P.
      repeat match type of P with
             | context [match ?x with _ => _ end] => destruct x
             end; discriminate.
    + now apply parseIPv6_length with s z.
Qed.

(** The network of an accepted CIDR text: its address and its mask have
    the same length, 4 or 16 bytes, and the address is masked. *)
Lemma ParseCIDR_network (s : string) (ip : net.IP) (netw : net.IPNet) :
  net.ParseCIDR s = Some (ip, netw) ->
  List.length (net.IPNet_IP netw) = List.length (net.Mask netw)
  /\ (List.length (net.Mask netw) = 4 \/ List.length (net.Mask netw) = 16)
  /\ net.andBytes (net.IPNet_IP netw) (net.Mask netw) = net.IPNet_IP netw
  /\ (net.To4 ip = None -> List.length (net.Mask netw) = 16).
Proof.
  unfold net.ParseCIDR.
  destruct (strings.Cut s "/") as [[addr mask] found].
  destruct (negb found); [discriminate|].
  destruct (net.ParseAddr addr) as [a|] eqn:PA; [|discriminate].
  apply ParseAddr_length in PA.
  destruct (negb (isEmpty (net.Zone a))); [discriminate|].
  destruct (net.dtoi mask) as [[n i] ok].
  destruct (negb ok || negb (i =? String.length mask) || (n <? 0)%Z
            || (net.BitLen a <? n)%Z); [discriminate|].
  unfold net.CIDRMask.
  destruct (negb (net.BitLen a =? 32)%Z && negb (net.BitLen a =? 128)%Z);
    [discriminate|].
  destruct ((n <? 0)%Z || (net.BitLen a <? n)%Z); [discriminate|].
  destruct a as [b|b z]; simpl net.BitLen; simpl net.As16.
  - change (Z.to_nat (32 / 8)) with 4.
    do 5 (destruct b as [|? b]; try discriminate PA).
    remember (net.maskBytes 4 n) as m eqn:Em.
    assert (List.length m = 4) as LM by (subst m; apply length_maskBytes).
    clear Em. do 5 (destruct m as [|? m]; try discriminate LM).
    unfold net.IP_Mask. cbn.
    intros [= <- <-]. cbn. repeat split; auto.
    + rewrite <- !Z.land_assoc, !Z.land_diag. reflexivity.
    + discriminate.
  - change (Z.to_nat (128 / 8)) with 16.
    remember (net.maskBytes 16 n) as m eqn:Em.
    assert (List.length m = 16) as LM by (subst m; apply length_maskBytes).
    clear Em. unfold net.IP_Mask.
    do 3 (rewrite ?LM, ?PA; cbn [Nat.eqb andb]; cbv zeta).
    intros [= <- <-]. cbn [net.IPNet_IP net.Mask].
    repeat split; auto using andBytes_idempotent.
    apply length_andBytes. now rewrite LM.
Qed.

(** X20: the network of an accepted ip4 or ip6 mechanism is a network
    address: it is as long as its mask, 4 or 16 bytes, 16 for ip6, and
    masking it changes nothing, the host bits being zero; the mask has
    at most 32 leading ones for ip4 and at most 128 for ip6. *)
Theorem accepted_network_canonical (q : Qualifier) (rest : string)
        (m : Mechanism) :
  (parseIP4 q rest = Ok m ->
   exists netw,
     Net m = Some netw
     /\ List.length (net.IPNet_IP netw) = List.length (net.Mask netw)
     /\ (List.length (net.Mask netw) = 4
         \/ List.length (net.Mask netw) = 16)
     /\ net.andBytes (net.IPNet_IP netw) (net.Mask netw)
        = net.IPNet_IP netw
     /\ (0 <= fst (net.Size (net.Mask netw)) <= 32)%Z)
  /\ (parseIP6 q rest = Ok m ->
      exists netw,
        Net m = Some netw
        /\ List.length (net.IPNet_IP netw) = 16
        /\ List.length (net.Mask netw) = 16
        /\ net.andBytes (net.IPNet_IP netw) (net.Mask netw)
           = net.IPNet_IP netw
        /\ (0 <= fst (net.Size (net.Mask netw)) <= 128)%Z).
Proof.
  split.
  - unfold parseIP4.
    destruct (negb (strings.HasPrefix rest "ip4:")); [discriminate|].
    destruct (net.ParseCIDR _) as [[ip netw]|] eqn:PC; [|discriminate].
    destruct (net.To4 ip); [|discriminate].
    pose proof (ParseCIDR_network _ _ _ PC) as (L & L' & A & _).
    apply ParseCIDR_inv in PC. destruct PC as (a & n & _ & _ & _ & Hn & M).
    apply Size_CIDRMask in M.
    destruct (net.Size (net.Mask netw)) as [ones bits] eqn:SZ.
    simpl in M. subst ones.
    destruct (Z.ltb_spec 32 n); [discriminate|].
    intros [= <-]. exists netw. rewrite SZ. simpl. repeat split; auto; lia.
  - unfold parseIP6.
    destruct (negb (strings.HasPrefix rest "ip6:")); [discriminate|].
    destruct (net.ParseCIDR _) as [[ip netw]|] eqn:PC; [|discriminate].
    destruct (net.To4 ip) eqn:T4; [discriminate|].
    pose proof (ParseCIDR_network _ _ _ PC) as (L & _ & A & L16).
    specialize (L16 T4).
    apply ParseCIDR_inv in PC. destruct PC as (a & n & _ & _ & _ & Hn & M).
    apply Size_CIDRMask in M.
    destruct (net.Size (net.Mask netw)) as [ones bits] eqn:SZ.
    simpl in M. subst ones.
    destruct (Z.ltb_spec 128 n); [discriminate|].
    intros [= <-]. exists netw. rewrite SZ. simpl.
    repeat split; auto; lia.
Qed.

(** ** Tokens *)

Lemma allBytes_app (p : ascii -> bool) (s t : string) :
  allBytes p (s ++ t) = allBytes p s && allBytes p t.
Proof.
  induction s as [|c s IH]; simpl; [reflexivity|].
  rewrite IH. apply andb_assoc.
Qed.

Lemma spaceWidth_zero (c : ascii) (r : string) :
  strings.spaceWidth (String c r) = 0 -> strings.asciiSpace c = false.
Proof.
  unfold strings.spaceWidth.
  destruct (strings.asciiSpace c); [discriminate|reflexivity].
Qed.

(** Every field is a non-empty run of bytes that are not ASCII white
    space. *)
Lemma fields_tokens (s : string) :
  forall skip cur,
    allBytes notAsciiSpace cur = true ->
    Forall (fun t => t <> EmptyString
                     /\ allBytes notAsciiSpace t = true)
           (strings.fields skip cur s).
Proof.
  assert (forall cur,
             allBytes notAsciiSpace cur = true ->
             Forall (fun t => t <> EmptyString
                              /\ allBytes notAsciiSpace t = true)
                    (strings.flush cur)) as F.
  { intros [|c cur] H; unfold strings.flush; simpl; constructor;
      [split; [discriminate|exact H]|constructor]. }
  induction s as [|c r IH]; intros skip cur HC; cbn [strings.fields].
  - now apply F.
  - destruct skip as [|k]; [|now apply IH].
    destruct (strings.spaceWidth (String c r)) as [|k] eqn:W.
    + apply IH. rewrite allBytes_app, HC. simpl.
      unfold notAsciiSpace. now rewrite (spaceWidth_zero c r W).
    + apply Forall_app. split; [now apply F|now apply IH].
Qed.

Lemma tokenizer_tokens_tl (raw : string) (tokens : list string) :
  tokenizer raw = Ok tokens ->
  tokens = tl (strings.Fields (strings.TrimSpace raw)).
Proof.
  unfold tokenizer.
  destruct (negb _); [discriminate|].
  destruct (List.length _ =? 0); [discriminate|]. now intros [= <-].
Qed.

(** X21: the terms [tokenizer] returns: there is at least one, they
    are the fields of the trimmed text after the first, and each is a
    non-empty run of bytes without ASCII white space; so no term that
    [Parse] hands to [stripQualifier] is empty. *)
Theorem tokenizer_tokens (raw : string) (tokens : list string) :
  tokenizer raw = Ok tokens ->
  tokens <> []
  /\ tokens = tl (strings.Fields (strings.TrimSpace raw))
  /\ Forall (fun t => t <> EmptyString
                      /\ allBytes notAsciiSpace t = true) tokens.
Proof.
  unfold tokenizer.
  destruct (negb _); [discriminate|].
  destruct (List.length _ =? 0) eqn:L; [discriminate|].
  intros [= <-]. apply Nat.eqb_neq in L.
  split; [intros E; rewrite E in L; now apply L|].
  split; [reflexivity|].
  pose proof (fields_tokens (strings.TrimSpace raw) 0 EmptyString eq_refl)
    as F.
  unfold strings.Fields.
  destruct (strings.fields 0 EmptyString (strings.TrimSpace raw));
    [constructor|]. now inversion F.
Qed.

(** ** Records *)

Section RecordProperties.

Variable idna : string -> option string.

Lemma parseTokens_complete (tokens : list string) (ms : list Mechanism) :
  Forall2 (termMechanism idna) tokens ms ->
  forall mechs,
    parseTokens idna tokens mechs
    = Ok {| Mechs := mechs ++ ms; Redirect := None; Exp := None;
            Unknown := [] |}.
Proof.
  induction 1 as [|tok m tokens ms [T _] _ IH]; intros mechs;
    cbn [parseTokens].
  - now rewrite app_nil_r.
  - destruct (stripQualifier tok) as [q rest]. cbn [fst snd] in T.
    rewrite T.
    rewrite IH, <- app_assoc. reflexivity.
Qed.

(** X22: [Parse] accepts a record exactly when [tokenizer] accepts it
    and every term is accepted by one of the parsers; the record then
    holds the mechanisms of the terms, in order, and nothing else. *)
Theorem Parse_accepts_iff (raw : string) (rec : Record_) :
  Parse idna raw = Ok rec
  <-> exists tokens,
      tokenizer raw = Ok tokens
      /\ Forall2 (termMechanism idna) tokens (Mechs rec)
      /\ Redirect rec = None /\ Exp rec = None /\ Unknown rec = [].
Proof.
  unfold Parse. split.
  - destruct (tokenizer raw) as [tokens|e]; [|discriminate].
    intros H. apply parseTokens_spec in H.
    destruct H as (ms & HM & F2 & _ & R & E & U). simpl in HM. subst ms.
    exists tokens. auto.
  - intros (tokens & -> & F2 & R & E & U).
    rewrite (parseTokens_complete _ _ F2 []).
    destruct rec. simpl in *. now subst.
Qed.

Lemma tryParsers_last_error (q : Qualifier) (rest : string) (e : error) :
  tryParsers (mechParsers idna) q rest (None, None) = (None, Some e) ->
  parseMX idna q rest = Err e.
Proof.
  unfold mechParsers, tryParsers.
  destruct (parseAll q rest); [discriminate|].
  destruct (parseIP4 q rest); [discriminate|].
  destruct (parseIP6 q rest); [discriminate|].
  destruct (parseA idna q rest); [discriminate|].
  destruct (parseMX idna q rest); [discriminate|]. now intros [= <-].
Qed.

Lemma parseTokens_error (tokens : list string) :
  forall mechs e,
    parseTokens idna tokens mechs = Err e ->
    exists tok perr,
      In tok tokens
      /\ parseMX idna (fst (stripQualifier tok)) (snd (stripQualifier tok))
         = Err perr
      /\ e = Errorf_v "permerror: %v" perr.
Proof.
  induction tokens as [|tok more IH]; intros mechs e; cbn [parseTokens];
    [discriminate|].
  destruct (stripQualifier tok) as [q rest] eqn:SQ.
  destruct (tryParsers_outcome idna q rest) as [(m & T & _)|(perr & T)];
    rewrite T.
  - intros H. destruct (IH _ _ H) as (tok' & perr & HIn & P & E).
    exists tok', perr. simpl. auto.
  - intros [= <-]. exists tok, perr. rewrite SQ. simpl.
    repeat split; auto. now apply tryParsers_last_error.
Qed.

(** X23: the errors of [Parse]: the two of [tokenizer], or a permerror
    for a term every parser refused.  The cause the permerror reports is
    always the error of [parseMX], the last parser tried: for a refused
    term that does not start with mx it is [no match], whatever an
    earlier parser found wrong. *)
Theorem Parse_error_kinds (raw : string) (e : error) :
  Parse idna raw = Err e ->
  e = errors_New "missing v=spf1"
  \/ e = errors_New "no terms"
  \/ exists tok perr,
      In tok (tl (strings.Fields (strings.TrimSpace raw)))
      /\ parseMX idna (fst (stripQualifier tok)) (snd (stripQualifier tok))
         = Err perr
      /\ e = Errorf_v "permerror: %v" perr
      /\ (strings.HasPrefix (snd (stripQualifier tok)) "mx" = false ->
          perr = errors_New "no match").
Proof.
  unfold Parse. destruct (tokenizer raw) as [tokens|e'] eqn:T.
  - intros H. right. right.
    apply parseTokens_error in H. destruct H as (tok & perr & HIn & P & E).
    exists tok, perr.
    apply tokenizer_tokens_tl in T. subst tokens.
    repeat split; auto.
    intros HP. unfold parseMX in P. rewrite HP in P. simpl in P.
    now injection P as <-.
  - intros [= <-]. unfold tokenizer in T.
    destruct (negb _); [injection T as <-; now left|].
    destruct (List.length _ =? 0); [injection T as <-; auto|discriminate].
Qed.

End RecordProperties.

(** ** Witnesses of the further properties *)

Lemma localPart_of_address_witness :
  localPart "<user@example.com>" = "user".
Proof.
  apply (localPart_of_address "<" "user" "example.com>");
    [reflexivity|discriminate|reflexivity|reflexivity|reflexivity].
Defined.

Lemma localPart_postmaster_witness :
  localPart "<>" = "postmaster" /\ localPart "<@example.com>" = "postmaster".
Proof.
  split.
  - apply (proj1 localPart_postmaster "<>"). reflexivity.
  - apply (proj2 localPart_postmaster "<" "example.com>"). reflexivity.
Defined.

Lemma getSenderDomain_first_at_witness :
  getSenderDomain "user@example.com" = ("example.com", true)
  /\ getSenderDomain "postmaster" = (EmptyString, false).
Proof.
  split.
  - apply (proj2 getSenderDomain_first_at "user" "example.com").
    reflexivity.
  - apply (proj1 getSenderDomain_first_at "postmaster"). reflexivity.
Defined.

Lemma sender_parts_join_witness :
  (localPart "user@example.com"
   ++ "@" ++ fst (getSenderDomain "user@example.com"))%string
  = "user@example.com".
Proof.
  apply (sender_parts_join "user" "example.com");
    [discriminate|reflexivity|reflexivity|reflexivity].
Defined.

Lemma ValidateDomain_accepted_shape_witness :
  ValidateDomain idna_plain "Example.COM." = Ok "example.com"
  /\ 2 <= List.length (strings.Split "example.com" ".")
  /\ strings.ToLower "example.com" = "example.com".
Proof.
  split; [reflexivity|].
  destruct (ValidateDomain_accepted_shape idna_plain "Example.COM."
              "example.com" eq_refl) as (_ & _ & L & _ & T).
  split; [exact L|exact T].
Defined.

Lemma CheckHost_fetch_failure_witness :
  outcome (CheckHost idna_plain unit unit
             (fetch_const
                (EmptyString,
                 Some (Errorf_w "lookup example.com: %w" ErrTempfail)))
             sampleChecker tt sampleIP "example.com" "user@example.com")
  = ({| Code := TempError;
        Cause := Some (Errorf_w "lookup example.com: %w" ErrTempfail) |},
     None)
  /\ outcome (CheckHost idna_plain unit unit
                (fetch_const (EmptyString, Some ErrMultipleSPF))
                sampleChecker tt sampleIP "example.com" "user@example.com")
     = ({| Code := PermError; Cause := Some ErrMultipleSPF |}, None).
Proof.
  split.
  - apply (proj1 (CheckHost_fetch_failure idna_plain unit unit
                    (fetch_const
                       (EmptyString,
                        Some (Errorf_w "lookup example.com: %w"
                                       ErrTempfail)))
                    sampleChecker tt sampleIP "example.com"
                    "user@example.com" "example.com" EmptyString
                    (Errorf_w "lookup example.com: %w" ErrTempfail)
                    eq_refl eq_refl eq_refl eq_refl eq_refl)).
    reflexivity.
  - apply (proj2 (CheckHost_fetch_failure idna_plain unit unit
                    (fetch_const (EmptyString, Some ErrMultipleSPF))
                    sampleChecker tt sampleIP "example.com"
                    "user@example.com" "example.com" EmptyString
                    ErrMultipleSPF
                    eq_refl eq_refl eq_refl eq_refl eq_refl));
      reflexivity.
Defined.

Lemma CheckHost_fault_witness :
  outcome (CheckHost idna_plain unit unit
             (fetch_const
                (EmptyString,
                 Some (Errorf_w "%w" (Errorf_w "%w" context_Canceled))))
             sampleChecker tt sampleIP "example.com" "user@example.com")
  = (zeroCheckHostResult,
     Some (Errorf_w "%w" (Errorf_w "%w" context_Canceled)))
  /\ outcome (CheckHost idna_plain unit unit
                (fetch_const (EmptyString, Some (errors_New "refused")))
                sampleChecker tt sampleIP "example.com" "user@example.com")
     = (zeroCheckHostResult, Some (errors_New "refused")).
Proof.
  split.
  - apply (CheckHost_fault idna_plain unit unit
             (fetch_const
                (EmptyString,
                 Some (Errorf_w "%w" (Errorf_w "%w" context_Canceled))))
             sampleChecker tt sampleIP "example.com" "user@example.com"
             "example.com" EmptyString);
      [reflexivity|reflexivity|left; reflexivity].
  - apply (CheckHost_fault idna_plain unit unit
             (fetch_const (EmptyString, Some (errors_New "refused")))
             sampleChecker tt sampleIP "example.com" "user@example.com"
             "example.com" EmptyString);
      [reflexivity|reflexivity|right; repeat split; reflexivity].
Defined.

Lemma CheckHost_empty_record_witness :
  outcome (CheckHost idna_plain unit unit
             (fetch_const (EmptyString, None))
             sampleChecker tt sampleIP "example.com" "user@example.com")
  = (zeroCheckHostResult, None).
Proof.
  apply (CheckHost_empty_record idna_plain unit unit
           (fetch_const (EmptyString, None))
           sampleChecker tt sampleIP "example.com" "user@example.com"
           "example.com"); reflexivity.
Defined.

Lemma CheckHost_cause_and_error_witness :
  Code (fst (outcome (CheckHost idna_plain unit unit
                        (fetch_const (EmptyString, Some ErrNoDNSrecord))
                        sampleChecker tt sampleIP "example.com"
                        "user@example.com"))) = EmptyString
  \/ Code (fst (outcome (CheckHost idna_plain unit unit
                           (fetch_const (EmptyString, Some ErrNoDNSrecord))
                           sampleChecker tt sampleIP "example.com"
                           "user@example.com"))) = None_.
Proof.
  apply (proj2 (CheckHost_cause_and_error idna_plain unit unit
                  (fetch_const (EmptyString, Some ErrNoDNSrecord))
                  sampleChecker tt sampleIP "example.com"
                  "user@example.com")).
  discriminate.
Defined.

Lemma CheckHost_ignores_witness :
  CheckHost idna_plain unit unit (fetch_const ("v=spf1 -all", None))
            sampleChecker tt sampleIP "example.com" "user@example.com" []
  = CheckHost idna_plain unit unit (fetch_const ("v=spf1 -all", None))
              {| Resolver := tt; MaxLookups := 0; MaxVoidLookups_ := 0 |}
              tt [] "example.com" "<>" [].
Proof.
  apply (CheckHost_ignores idna_plain unit unit
           (fetch_const ("v=spf1 -all", None))). reflexivity.
Defined.

Lemma parseMasks_accepted_witness :
  parseMasks "24/64" = Ok (24%Z, 64%Z)
  /\ (0 <= 24 <= 32)%Z /\ maskInRange 64 128.
Proof.
  split; [reflexivity|].
  destruct (parseMasks_accepted "24/64" 24 64 eq_refl) as (A & B & _).
  split; [exact A|exact B].
Defined.

Lemma parseMasks_plus_sign_witness :
  parseMasks "+24/64" = parseMasks "24/64".
Proof. apply (parseMasks_plus_sign "2" "4/64"). reflexivity. Defined.

Lemma parseA_parseMX_accepted_witness :
  parseA idna_plain QTilde "a:example.com/24/64"
  = Ok {| Qual := QTilde; Kind := "a"; Net := None;
          Domain := "example.com"; Mask4 := 24; Mask6 := 64;
          Macro := EmptyString |}
  /\ maskInRange 24 32 /\ maskInRange 64 128.
Proof.
  split; [reflexivity|].
  destruct (parseA_parseMX_accepted idna_plain QTilde "a:example.com/24/64"
              {| Qual := QTilde; Kind := "a"; Net := None;
                 Domain := "example.com"; Mask4 := 24; Mask6 := 64;
                 Macro := EmptyString |} (or_introl eq_refl))
    as (_ & _ & A & B & _).
  split; [exact A|exact B].
Defined.

Lemma parseA_invalid_syntax_witness :
  parseA idna_plain QPlus "afoobar"
  = Err (Errorf_q "invalid a-mechanism syntax %q" "afoobar")
  /\ tryParsers (mechParsers idna_plain) QPlus "afoobar" (None, None)
     = (None, Some (errors_New "no match")).
Proof.
  destruct (parseA_invalid_syntax idna_plain QPlus "foobar"
              ltac:(discriminate) eq_refl eq_refl) as [A B].
  split; [exact A|]. apply B. discriminate.
Defined.

Lemma empty_domain_after_colon_witness :
  parseA idna_plain QPlus "a:/24" = parseA idna_plain QPlus "a/24"
  /\ parseMX idna_plain QPlus "mx:/24" = parseMX idna_plain QPlus "mx/24".
Proof.
  apply (proj2 (proj2 (empty_domain_after_colon idna_plain QPlus "24"))).
  discriminate.
Defined.

Lemma default_prefix_length_witness :
  parseIP4 QPlus "ip4:192.0.2.1" = parseIP4 QPlus "ip4:192.0.2.1/32"
  /\ parseIP6 QPlus "ip6:2001:db8::1" = parseIP6 QPlus "ip6:2001:db8::1/128".
Proof.
  split.
  - apply (proj1 (default_prefix_length QPlus "192.0.2.1" eq_refl)).
  - apply (proj2 (default_prefix_length QPlus "2001:db8::1" eq_refl)).
Defined.

Lemma accepted_network_canonical_witness :
  parseIP4 QPlus "ip4:192.0.2.77/24"
  = Ok {| Qual := QPlus; Kind := "ip4";
          Net := Some {| net.IPNet_IP := [192; 0; 2; 0]%Z;
                         net.Mask := [255; 255; 255; 0]%Z |};
          Domain := EmptyString; Mask4 := 0; Mask6 := 0;
          Macro := EmptyString |}
  /\ exists netw,
      Some {| net.IPNet_IP := [192; 0; 2; 0]%Z;
              net.Mask := [255; 255; 255; 0]%Z |} = Some netw
      /\ List.length (net.IPNet_IP netw) = List.length (net.Mask netw)
      /\ (List.length (net.Mask netw) = 4
          \/ List.length (net.Mask netw) = 16)
      /\ net.andBytes (net.IPNet_IP netw) (net.Mask netw)
         = net.IPNet_IP netw
      /\ (0 <= fst (net.Size (net.Mask netw)) <= 32)%Z.
Proof.
  split; [reflexivity|].
  apply (proj1 (accepted_network_canonical QPlus "ip4:192.0.2.77/24"
                  {| Qual := QPlus; Kind := "ip4";
                     Net := Some {| net.IPNet_IP := [192; 0; 2; 0]%Z;
                                    net.Mask := [255; 255; 255; 0]%Z |};
                     Domain := EmptyString; Mask4 := 0; Mask6 := 0;
                     Macro := EmptyString |})).
  reflexivity.
Defined.

Lemma tokenizer_tokens_witness :
  tokenizer "  V=spf1  mx   -all " = Ok ["mx"; "-all"]
  /\ Forall (fun t => t <> EmptyString /\ allBytes notAsciiSpace t = true)
            ["mx"; "-all"].
Proof.
  split; [reflexivity|].
  apply (tokenizer_tokens "  V=spf1  mx   -all " ["mx"; "-all"]).
  reflexivity.
Defined.

Lemma Parse_accepts_iff_witness :
  Parse idna_plain "v=spf1 mx -all"
  = Ok {| Mechs := [ {| Qual := QPlus; Kind := "mx"; Net := None;
                        Domain := EmptyString; Mask4 := -1; Mask6 := -1;
                        Macro := EmptyString |};
                     mechanism QMinus "all" ];
          Redirect := None; Exp := None; Unknown := [] |}.
Proof.
  apply (proj2 (Parse_accepts_iff idna_plain "v=spf1 mx -all" _)).
  exists ["mx"; "-all"]. split; [reflexivity|].
  split; [|auto].
  repeat constructor.
Defined.

Lemma Parse_error_kinds_witness :
  Parse idna_plain "v=spf1 ip4:999.1.1.1"
  = Err (Errorf_v "permerror: %v" (errors_New "no match"))
  /\ (errors_New "no match" = errors_New "missing v=spf1"
      \/ Errorf_v "permerror: %v" (errors_New "no match")
         = errors_New "no terms"
      \/ exists tok perr,
          In tok (tl (strings.Fields
                        (strings.TrimSpace "v=spf1 ip4:999.1.1.1")))
          /\ parseMX idna_plain (fst (stripQualifier tok))
                     (snd (stripQualifier tok)) = Err perr
          /\ Errorf_v "permerror: %v" (errors_New "no match")
             = Errorf_v "permerror: %v" perr
          /\ (strings.HasPrefix (snd (stripQualifier tok)) "mx" = false ->
              perr = errors_New "no match")).
Proof.
  split; [reflexivity|].
  destruct (Parse_error_kinds idna_plain "v=spf1 ip4:999.1.1.1"
              (Errorf_v "permerror: %v" (errors_New "no match")) eq_refl)
    as [H|[H|H]]; [discriminate H|discriminate H|].
  right. right. exact H.
Defined.

Lemma ValidateDomain_diagnostic_witness :
  ValidateDomain idna_plain "localhost" = Err ErrSingleLabel
  /\ ValidateDomain idna_plain "a..example.com" = Err ErrIDNAConversion
  /\ ValidateDomain idna_unchecked "a..example.com" = Err ErrEmptyLabel.
Proof.
  split; [|split].
  - apply (proj1 (proj2 (ValidateDomain_diagnostic idna_plain "localhost")));
      simpl; lia.
  - exact (ValidateDomain_diagnostic idna_plain "a..example.com").
  - apply (proj1 (proj2 (proj2 (ValidateDomain_diagnostic idna_unchecked
                                   "a..example.com"))));
      [simpl; lia|simpl; lia| |simpl; auto].
    repeat constructor; simpl; lia.
Defined.

Lemma CheckHost_valid_not_None_nil_witness :
  ValidateDomain idna_plain "example.com" = Ok "example.com"
  /\ ~ (Code (fst (outcome (CheckHost idna_plain unit unit
                              (fetch_const (EmptyString, None))
                              sampleChecker tt sampleIP "example.com"
                              "user@example.com"))) = None_
        /\ snd (outcome (CheckHost idna_plain unit unit
                           (fetch_const (EmptyString, None))
                           sampleChecker tt sampleIP "example.com"
                           "user@example.com")) = None).
Proof.
  split; [reflexivity|].
  apply (CheckHost_valid_not_None_nil idna_plain unit unit
           (fetch_const (EmptyString, None))
           sampleChecker tt sampleIP "example.com" "user@example.com"
           "example.com").
  reflexivity.
Defined.

Lemma parseIP6_rejects_IPv4_form_witness :
  tryParsers (mechParsers idna_plain) QPlus "ip6:192.0.2.1/24" (None, None)
  = (None, Some (errors_New "no match"))
  /\ tryParsers (mechParsers idna_plain) QPlus "ip6:::ffff:192.0.2.1"
                (None, None)
     = (None, Some (errors_New "no match")).
Proof.
  split.
  - apply (proj2 (parseIP6_rejects_IPv4_form idna_plain QPlus
                    "192.0.2.1/24" (net.Addr4 [192; 0; 2; 1]%Z)
                    eq_refl ltac:(discriminate))).
  - apply (proj2 (parseIP6_rejects_IPv4_form idna_plain QPlus
                    "::ffff:192.0.2.1"
                    (net.Addr6 [0;0;0;0;0;0;0;0;0;0;255;255;192;0;2;1]%Z
                               EmptyString)
                    eq_refl ltac:(discriminate))).
Defined.

Lemma parseIP4_rejects_IPv6_only_witness :
  tryParsers (mechParsers idna_plain) QPlus "ip4:2001:db8::1" (None, None)
  = (None, Some (errors_New "no match")).
Proof.
  apply (proj2 (parseIP4_rejects_IPv6_only idna_plain QPlus "2001:db8::1"
                  (net.Addr6 [32;1;13;184;0;0;0;0;0;0;0;0;0;0;0;1]%Z
                             EmptyString)
                  eq_refl ltac:(intros H; now apply H))).
Defined.

Lemma prefix_out_of_range_refused_witness :
  tryParsers (mechParsers idna_plain) QPlus "ip4:192.0.2.0/33" (None, None)
  = (None, Some (errors_New "no match"))
  /\ tryParsers (mechParsers idna_plain) QPlus "ip6:2001:db8::/129"
                (None, None)
     = (None, Some (errors_New "no match")).
Proof.
  split.
  - apply (proj1 (prefix_out_of_range_refused idna_plain QPlus
                    "192.0.2.0" "33" eq_refl)).
    intros (n & E & R). vm_compute in E. injection E as <-. lia.
  - apply (proj2 (prefix_out_of_range_refused idna_plain QPlus
                    "2001:db8::" "129" eq_refl)).
    intros (n & E & R). vm_compute in E. injection E as <-. lia.
Defined.

Lemma tokenizer_errors_witness :
  tokenizer "spf1 -all" = Err (errors_New "missing v=spf1")
  /\ tokenizer " v=SPF1 " = Err (errors_New "no terms").
Proof.
  split.
  - apply (proj1 (tokenizer_errors "spf1 -all")).
    intros f fs E. vm_compute in E. injection E as <- _. reflexivity.
  - apply (proj2 (tokenizer_errors " v=SPF1 ")); reflexivity.
Defined.

Lemma explicit_domain_decides_witness :
  ValidateDomain idna_plain "Mail.Example.COM" = Ok "mail.example.com"
  /\ parseA idna_plain QPlus "a:Mail.Example.COM"
     = Ok {| Qual := QPlus; Kind := "a"; Net := None;
             Domain := "Mail.Example.COM"; Mask4 := -1; Mask6 := -1;
             Macro := EmptyString |}
  /\ parseMX idna_plain QPlus "mx:localhost"
     = Err (Errorf_q "bad domain %q" "localhost").
Proof.
  split; [reflexivity|]. split.
  - apply (proj1 (explicit_domain_decides idna_plain QPlus
                    "Mail.Example.COM" ltac:(discriminate) eq_refl)
                 "mail.example.com" eq_refl).
  - apply (proj2 (explicit_domain_decides idna_plain QPlus "localhost"
                    ltac:(discriminate) eq_refl) ErrSingleLabel eq_refl).
Defined.

Lemma qualifier_independent_witness :
  tryParsers (mechParsers idna_plain) QMinus "ip4:192.0.2.0/24" (None, None)
  = (Some {| Qual := QMinus; Kind := "ip4";
             Net := Some {| net.IPNet_IP := [192; 0; 2; 0]%Z;
                            net.Mask := [255; 255; 255; 0]%Z |};
             Domain := EmptyString; Mask4 := 0; Mask6 := 0;
             Macro := EmptyString |}, None).
Proof.
  apply (proj1 (qualifier_independent idna_plain QPlus QMinus
                  "ip4:192.0.2.0/24")
               {| Qual := QPlus; Kind := "ip4";
                  Net := Some {| net.IPNet_IP := [192; 0; 2; 0]%Z;
                                 net.Mask := [255; 255; 255; 0]%Z |};
                  Domain := EmptyString; Mask4 := 0; Mask6 := 0;
                  Macro := EmptyString |}).
  reflexivity.
Defined.
